(** * ElevenLabs demo scripts: a shallow embedding of [main.py] and
      [simple_example.py]

    The two scripts are glue code around the vendor SDK: they read one
    environment variable, build a client, call the remote service, hand the
    returned audio to the SDK's [save], [play] and [stream] helpers and print
    progress lines.  The embedding keeps that shape.  Every observable action
    is appended to a chronological trace, the file system is a finite map from
    paths to bytes, and everything the scripts cannot decide themselves (the
    process environment, the answers of the remote service, whether a helper
    raises, what the SDK does with a [Voice] that has no identifier, the
    Unicode tables behind [str.lower]) is an oracle of the run. *)

From Stdlib Require Import ZArith Ascii String Floats.SpecFloat.
From stdpp Require Import gmap strings list pretty.

Open Scope string_scope.
Open Scope list_scope.

(** ** Python values *)

(** A Python [str] is kept as its UTF-8 encoding. *)

Definition nl : string := String (ascii_of_nat 10) EmptyString.

(** [s * n] on strings. *)
Fixpoint str_mul (s : string) (n : nat) : string :=
  match n with
  | O => EmptyString
  | S n' => s +:+ str_mul s n'
  end.

(** [str.lower()] on a string of ASCII characters: the letters A-Z are
    mapped to a-z and nothing else changes.  Strings with other characters
    are lowered by the Unicode tables of the interpreter, see [lower]. *)
Definition lower_ascii (c : ascii) : ascii :=
  let n := nat_of_ascii c in
  if (65 <=? n)%nat && (n <=? 90)%nat then ascii_of_nat (n + 32) else c.

Fixpoint ascii_lower (s : string) : string :=
  match s with
  | EmptyString => EmptyString
  | String c s' => String (lower_ascii c) (ascii_lower s')
  end.

Fixpoint is_ascii (s : string) : bool :=
  match s with
  | EmptyString => true
  | String c s' => (nat_of_ascii c <? 128)%nat && is_ascii s'
  end.

(** [s[:n]] counts code points, not bytes: a continuation byte (10xxxxxx)
    stays with the code point it belongs to. *)
Definition is_continuation (c : ascii) : bool :=
  let n := nat_of_ascii c in (128 <=? n)%nat && (n <? 192)%nat.

Fixpoint str_take (n : nat) (s : string) : string :=
  match s with
  | EmptyString => EmptyString
  | String c s' =>
      if is_continuation c then String c (str_take n s')
      else match n with
           | O => EmptyString
           | S n' => String c (str_take n' s')
           end
  end.

(** Truthiness of an [Optional[str]]: [None] and the empty string are falsy. *)
Definition truthy (o : option string) : bool :=
  match o with
  | Some (String _ _) => true
  | _ => false
  end.

(** [o or d] for an [Optional[str]] and a truthy string [d]. *)
Definition str_or (o : option string) (d : string) : string :=
  match o with
  | Some (String _ _ as s) => s
  | _ => d
  end.

(** A Python [float] is an IEEE binary64 value. *)
Definition float : Type := spec_float.

(** The literals 0.2, 0.7 and 0.8 of [main], rounded to nearest. *)
Definition f_0_2 : float := S754_finite false 0x1999999999999a (-55).
Definition f_0_7 : float := S754_finite false 0x16666666666666 (-53).
Definition f_0_8 : float := S754_finite false 0x1999999999999a (-53).

(** Exceptions.  [main] tells [ValueError] (and its subclasses) from every
    other [Exception]; nothing else about the class is observed.  [exc_msg]
    is [str(e)]. *)
Inductive ExcClass := ValueError | OtherException.

Record Exc := { exc_class : ExcClass; exc_msg : string }.

(** ** The SDK's data *)

(** An entry of the voice listing. *)
Record Voice := {
  voice_id : string;
  name : string;
  category : string;
  description : option string
}.

Record VoiceSettings := {
  stability : float;
  similarity_boost : float;
  style : float;
  use_speaker_boost : bool
}.

(** The keyword arguments of a [Voice(...)] built for a request. *)
Record VoiceInit := {
  init_voice_id : option string;
  init_name : option string;
  init_settings : option VoiceSettings
}.

(** [generate] takes a [Voice] object or a plain string. *)
Inductive VoiceSel :=
| VoiceObj (v : VoiceInit)
| VoiceStr (s : string).

(** The keyword arguments of [client.generate]; [g_stream] is [None] when
    the keyword is not passed. *)
Record GenerateRequest := {
  g_text : string;
  g_voice : VoiceSel;
  g_model : string;
  g_stream : option bool
}.

(** What [generate] hands back: a [bytes] buffer, or an iterator that will
    yield the chunks [cs].  The scripts never look inside; they pass the
    object on to [save], [play] and [stream], and an event of the trace
    records the object that was passed.  A buffer can be read any number of
    times.  An iterator yields its chunks once: what a helper finds in it
    depends on who has read it before, see [received]. *)
Inductive Audio :=
| AudioBytes (b : list Byte.byte)
| AudioChunks (cs : list (list Byte.byte)).

#[global] Instance byte_eq_decision : EqDecision Byte.byte :=
  Byte.byte_eq_dec.

#[global] Instance Audio_eq_decision : EqDecision Audio.
Proof. solve_decision. Defined.

(** All the bytes of an audio that nobody has read yet. *)
Definition audio_bytes (a : Audio) : list Byte.byte :=
  match a with
  | AudioBytes b => b
  | AudioChunks cs => concat cs
  end.

Record Client := { client_api_key : string }.

(** ** Console lines *)

(** A printed line is the list of the pieces of its f-string: the literal
    parts and the interpolated values, left unrendered. *)
Inductive Piece :=
| Lit (s : string)
| PStr (s : string)
| PInt (n : nat)
| PFloat (x : float)
| PBool (b : bool)
| PExc (e : Exc).

Definition Line : Type := list Piece.

(** ** The world of a run *)

(** Everything a run does that can be seen from outside, in order. *)
Inductive Event :=
| EvGetenv (var : string)
| EvNewClient (key : string)
| EvGetAll (key : string)
| EvGenerate (key : string) (req : GenerateRequest)
| EvSave (a : Audio) (path : string)
| EvPlay (a : Audio)
| EvStream (a : Audio)
| EvPrint (line : Line).

Record World := {
  trace : list Event;
  files : gmap string (list Byte.byte)
}.

(** Reading an audio.  The object at hand is the one the latest synthesis
    call returned.  Going back through the trace (latest event first) up to
    that call: has a helper been called with this object?  A helper that was
    called has read what it was given. *)
Fixpoint read_since_generate (rtr : list Event) (a : Audio) : bool :=
  match rtr with
  | [] => false
  | EvGenerate _ _ :: _ => false
  | EvSave a' _ :: rest | EvPlay a' :: rest | EvStream a' :: rest =>
      if decide (a' = a) then true else read_since_generate rest a
  | _ :: rest => read_since_generate rest a
  end.

(** What a helper called after the events [tr] reads from [a]: a buffer in
    full; an iterator in full the first time and empty afterwards. *)
Definition received (tr : list Event) (a : Audio) : list Byte.byte :=
  match a with
  | AudioBytes b => b
  | AudioChunks cs =>
      if read_since_generate (rev tr) a then [] else concat cs
  end.

(** What the scripts cannot decide.  [environ] is [os.environ].  The next
    five fields answer a call from the trace up to the call and its
    arguments: the remote service returns a value or raises, a helper raises
    or not.  [voice_without_id] is what the SDK does with [Voice(...)] when no
    [voice_id] is passed, the one field the model declares as required: the
    validation error it raises, or [None] for an SDK that builds the object
    all the same.  [unicode_lower] is [str.lower] on strings that are not
    plain ASCII. *)
Record Env := {
  environ : gmap string string;
  voices_get_all : list Event -> string -> Exc + list Voice;
  generate : list Event -> string -> GenerateRequest -> Exc + Audio;
  save_raises : list Event -> Audio -> string -> option Exc;
  play_raises : list Event -> Audio -> option Exc;
  stream_raises : list Event -> Audio -> option Exc;
  voice_without_id : VoiceInit -> option Exc;
  unicode_lower : string -> string
}.

(** [s.lower()] *)
Definition lower (env : Env) (s : string) : string :=
  if is_ascii s then ascii_lower s else unicode_lower env s.

(** Projections of a trace: the events that go to the network, the synthesis
    requests, what each helper was called with. *)
Definition is_network (e : Event) : bool :=
  match e with
  | EvGetAll _ | EvGenerate _ _ => true
  | _ => false
  end.

Definition generate_of (e : Event) : list GenerateRequest :=
  match e with EvGenerate _ r => [r] | _ => [] end.

Definition play_of (e : Event) : list Audio :=
  match e with EvPlay a => [a] | _ => [] end.

Definition stream_of (e : Event) : list Audio :=
  match e with EvStream a => [a] | _ => [] end.

Definition save_of (e : Event) : list (Audio * string) :=
  match e with EvSave a p => [(a, p)] | _ => [] end.

Definition new_client_of (e : Event) : list string :=
  match e with EvNewClient k => [k] | _ => [] end.

Definition getenv_of (e : Event) : list string :=
  match e with EvGetenv v => [v] | _ => [] end.

Definition network_of (e : Event) : list Event :=
  if is_network e then [e] else [].

Definition generate_calls (tr : list Event) : list GenerateRequest :=
  flat_map generate_of tr.

Definition play_calls (tr : list Event) : list Audio := flat_map play_of tr.

Definition stream_calls (tr : list Event) : list Audio :=
  flat_map stream_of tr.

Definition save_calls (tr : list Event) : list (Audio * string) :=
  flat_map save_of tr.

Definition new_clients (tr : list Event) : list string :=
  flat_map new_client_of tr.

Definition getenv_calls (tr : list Event) : list string :=
  flat_map getenv_of tr.

Definition network_calls (tr : list Event) : list Event :=
  flat_map network_of tr.

(** ** The monad of the scripts: state and exceptions *)

Definition M (A : Type) : Type := World -> World * (Exc + A).

Definition ret {A} (a : A) : M A := fun w => (w, inr a).

Definition raise {A} (e : Exc) : M A := fun w => (w, inl e).

Definition bind {A B} (m : M A) (k : A -> M B) : M B :=
  fun w =>
    match m w with
    | (w', inr a) => k a w'
    | (w', inl e) => (w', inl e)
    end.

(** [try: body except Exception as e: handler e] *)
Definition try_except {A} (body : M A) (handler : Exc -> M A) : M A :=
  fun w =>
    match body w with
    | (w', inl e) => handler e w'
    | r => r
    end.

(** The notations [x ← m; k] and [m;; k] of the scripts below are [bind]. *)
#[global] Instance M_ret : MRet M := @ret.
#[global] Instance M_bind : MBind M := fun A B k m => bind m k.

Definition log (e : Event) (w : World) : World :=
  {| trace := trace w ++ [e]; files := files w |}.

Definition emit (e : Event) : M unit := fun w => (log e w, inr tt).

Definition print (l : Line) : M unit := emit (EvPrint l).

(** [for x in xs: body x] *)
Fixpoint for_each {A} (xs : list A) (body : A -> M unit) : M unit :=
  match xs with
  | [] => ret tt
  | x :: xs' => body x ;; for_each xs' body
  end.

(** [enumerate(xs, start)] *)
Fixpoint enumerate {A} (xs : list A) (start : nat) : list (nat * A) :=
  match xs with
  | [] => []
  | x :: xs' => (start, x) :: enumerate xs' (S start)
  end.

(** ** The library calls, against the oracles *)

Section Calls.
Variable env : Env.

(** [os.getenv(var)] and [os.getenv(var, default)] *)
Definition os_getenv (var : string) : M (option string) :=
  emit (EvGetenv var) ;; ret (environ env !! var).

Definition os_getenv_default (var default : string) : M string :=
  emit (EvGetenv var) ;;
  ret (match environ env !! var with Some v => v | None => default end).

(** [ElevenLabs(api_key=key)]: builds the handle, no remote call. *)
Definition ElevenLabs (key : string) : M Client :=
  emit (EvNewClient key) ;; ret {| client_api_key := key |}.

(** [Voice(...)]: built when a [voice_id] is given; without one the SDK
    decides, and its exception is raised before anything is sent. *)
Definition new_voice (v : VoiceInit) : M VoiceInit :=
  match init_voice_id v with
  | Some _ => ret v
  | None =>
      match voice_without_id env v with
      | Some e => raise e
      | None => ret v
      end
  end.

(** [client.voices.get_all().voices] *)
Definition client_voices_get_all (c : Client) : M (list Voice) :=
  fun w =>
    (log (EvGetAll (client_api_key c)) w,
     voices_get_all env (trace w) (client_api_key c)).

(** [client.generate(...)] *)
Definition client_generate (c : Client) (req : GenerateRequest) : M Audio :=
  fun w =>
    (log (EvGenerate (client_api_key c) req) w,
     generate env (trace w) (client_api_key c) req).

(** [save(audio, filename)]: what the helper reads from the audio goes to
    the named file, replacing what was there, unless the helper raises. *)
Definition save (audio : Audio) (filename : string) : M unit :=
  fun w =>
    match save_raises env (trace w) audio filename with
    | Some e => (log (EvSave audio filename) w, inl e)
    | None =>
        ({| trace := trace w ++ [EvSave audio filename];
            files := <[filename := received (trace w) audio]> (files w) |},
         inr tt)
    end.

(** [play(audio)] and [stream(audio_stream)]: the playback sinks.  What
    reaches the sink is [received] at the moment of the call. *)
Definition play (audio : Audio) : M unit :=
  fun w =>
    (log (EvPlay audio) w,
     match play_raises env (trace w) audio with
     | Some e => inl e
     | None => inr tt
     end).

Definition stream (audio_stream : Audio) : M unit :=
  fun w =>
    (log (EvStream audio_stream) w,
     match stream_raises env (trace w) audio_stream with
     | Some e => inl e
     | None => inr tt
     end).
End Calls.

(** ** main.py *)

Module Main.

Record ElevenLabsDemo := {
  api_key : string;
  client : Client
}.

Definition api_key_required : Exc :=
  {| exc_class := ValueError;
     exc_msg := "API key is required. Set ELEVENLABS_API_KEY environment variable or pass api_key parameter" |}.

Definition demo_voices : list string := ["Rachel"; "Drew"; "Clyde"; "Paul"].

Section Demo.
Variable env : Env.

(** [ElevenLabsDemo.__init__].  [api_key or os.getenv(...)] reads the
    environment only when [api_key] is falsy. *)
Definition __init__ (api_key : option string) : M ElevenLabsDemo :=
  key ← (if truthy api_key then ret api_key
         else os_getenv env "ELEVENLABS_API_KEY");
  match key with
  | Some (String _ _ as k) =>
      c ← ElevenLabs k;
      ret {| api_key := k; client := c |}
  | _ => raise api_key_required
  end.

Definition list_voices (self : ElevenLabsDemo) : M (list Voice) :=
  print [Lit "📋 获取可用语音列表..."];;
  voices ← client_voices_get_all env (client self);
  print [Lit (nl +:+ "找到 "); PInt (length voices); Lit " 个可用语音:"];;
  print [Lit (str_mul "-" 50)];;
  for_each voices (fun voice =>
    print [Lit "🗣️  "; PStr (name voice)];;
    print [Lit "   ID: "; PStr (voice_id voice)];;
    print [Lit "   类别: "; PStr (category voice)];;
    print [Lit "   描述: ";
           PStr (str_or (description voice) "N/A")];;
    print []);;
  ret voices.

(** Python's default arguments ([voice_name="Rachel"], [stability=0.5],
    [use_speaker_boost=True], ...) are the caller's to fill in here; [main]
    leaves only [use_speaker_boost] to its default. *)
Definition basic_tts (self : ElevenLabsDemo)
    (text voice_name output_file : string) : M unit :=
  print [Lit "🔊 基础文本转语音: '"; PStr (str_take 50 text); Lit "...'"];;
  print [Lit "📢 使用语音: "; PStr voice_name];;
  try_except
    (voice ← new_voice env {| init_voice_id := None;
                              init_name := Some voice_name;
                              init_settings := None |};
     audio ← client_generate env (client self)
               {| g_text := text;
                  g_voice := VoiceObj voice;
                  g_model := "eleven_monolingual_v1";
                  g_stream := None |};
     save env audio output_file;;
     print [Lit "✅ 音频已保存到: "; PStr output_file];;
     print [Lit "🎵 播放音频..."];;
     play env audio)
    (fun e => print [Lit "❌ 错误: "; PExc e]).

Definition advanced_tts_with_settings (self : ElevenLabsDemo)
    (text voice_id : string)
    (stability similarity_boost style : float) (use_speaker_boost : bool)
    (output_file : string) : M unit :=
  print [Lit "🎛️  高级文本转语音设置:"];;
  print [Lit "   稳定性: "; PFloat stability];;
  print [Lit "   相似度增强: "; PFloat similarity_boost];;
  print [Lit "   风格: "; PFloat style];;
  print [Lit "   扬声器增强: "; PBool use_speaker_boost];;
  try_except
    (voice ← new_voice env
               {| init_voice_id := Some voice_id;
                  init_name := None;
                  init_settings :=
                    Some {| stability := stability;
                            similarity_boost := similarity_boost;
                            style := style;
                            use_speaker_boost := use_speaker_boost |} |};
     audio ← client_generate env (client self)
               {| g_text := text;
                  g_voice := VoiceObj voice;
                  g_model := "eleven_multilingual_v2";
                  g_stream := None |};
     save env audio output_file;;
     print [Lit "✅ 高级音频已保存到: "; PStr output_file];;
     play env audio)
    (fun e => print [Lit "❌ 错误: "; PExc e]).

Definition streaming_tts (self : ElevenLabsDemo)
    (text voice_name : string) : M unit :=
  print [Lit "🌊 流式文本转语音: '"; PStr (str_take 50 text); Lit "...'"];;
  print [Lit "🎵 实时播放中..."];;
  try_except
    (voice ← new_voice env {| init_voice_id := None;
                              init_name := Some voice_name;
                              init_settings := None |};
     audio_stream ← client_generate env (client self)
                      {| g_text := text;
                         g_voice := VoiceObj voice;
                         g_model := "eleven_turbo_v2";
                         g_stream := Some true |};
     stream env audio_stream;;
     print [Lit "✅ 流式播放完成"])
    (fun e => print [Lit "❌ 错误: "; PExc e]).

(** The loop of [get_voice_by_name]: the first voice whose lowered name is
    the lowered query ends the scan. *)
Fixpoint scan_voices (voices : list Voice) (voice_name : string)
    : option Voice :=
  match voices with
  | [] => None
  | voice :: rest =>
      if String.eqb (lower env (name voice)) (lower env voice_name)
      then Some voice
      else scan_voices rest voice_name
  end.

Definition get_voice_by_name (self : ElevenLabsDemo) (voice_name : string)
    : M (option Voice) :=
  voices ← client_voices_get_all env (client self);
  ret (scan_voices voices voice_name).

(** The file a voice of the comparison is saved to. *)
Definition demo_voice_file (i : nat) (voice_name : string) : string :=
  "demo_voice_" +:+ pretty i +:+ "_" +:+ lower env voice_name +:+ ".mp3".

(** The body of the loop of [demo_multiple_voices]. *)
Definition demo_voice (self : ElevenLabsDemo) (text : string)
    (iv : nat * string) : M unit :=
  let '(i, voice_name) := iv in
  print [Lit (nl +:+ "🗣️  语音 "); PInt i; Lit ": "; PStr voice_name];;
  try_except
    (voice ← new_voice env {| init_voice_id := None;
                              init_name := Some voice_name;
                              init_settings := None |};
     audio ← client_generate env (client self)
               {| g_text := text;
                  g_voice := VoiceObj voice;
                  g_model := "eleven_monolingual_v1";
                  g_stream := None |};
     let output_file := demo_voice_file i voice_name in
     save env audio output_file;;
     print [Lit "   💾 保存到: "; PStr output_file])
    (fun e => print [Lit "   ❌ 语音 "; PStr voice_name; Lit " 失败: "; PExc e]).

Definition demo_multiple_voices (self : ElevenLabsDemo) (text : string)
    : M unit :=
  print [Lit "🎭 多语音演示: '"; PStr text; Lit "'"];;
  for_each (enumerate demo_voices 1) (demo_voice self text).

Definition main : M unit :=
  print [Lit "🎬 ElevenLabs API Python Demo"];;
  print [Lit (str_mul "=" 40)];;
  try_except
    (demo ← __init__ None;
     print [Lit (nl +:+ "1️⃣  演示：列出可用语音")];;
     voices ← list_voices demo;
     print [Lit (nl +:+ "2️⃣  演示：基础文本转语音")];;
     basic_tts demo
       "Hello! This is a demonstration of ElevenLabs text-to-speech API. The quality is quite impressive!"
       "Rachel" "demo_basic.mp3";;
     match voices with
     | first_voice :: _ =>
         print [Lit (nl +:+ "3️⃣  演示：高级设置文本转语音")];;
         advanced_tts_with_settings demo
           "This is an advanced example with custom voice settings. Notice the difference in tone and style."
           (voice_id first_voice) f_0_7 f_0_8 f_0_2 true "demo_advanced.mp3"
     | [] => ret tt
     end;;
     print [Lit (nl +:+ "4️⃣  演示：流式文本转语音")];;
     streaming_tts demo
       "This is a streaming example. The audio should play in real-time as it's being generated."
       "Rachel";;
     print [Lit (nl +:+ "5️⃣  演示：多语音对比")];;
     demo_multiple_voices demo
       "This is the same text spoken by different voices for comparison.";;
     print [Lit (nl +:+ "🎉 所有演示完成！")];;
     print [Lit "📁 检查当前目录中生成的音频文件"])
    (fun e =>
       match exc_class e with
       | ValueError =>
           print [Lit "❌ 配置错误: "; PExc e];;
           print [Lit (nl +:+ "🔧 设置说明:")];;
           print [Lit "1. 获取 ElevenLabs API 密钥: https://elevenlabs.io/"];;
           print [Lit "2. 设置环境变量: export ELEVENLABS_API_KEY='your_api_key'"];;
           print [Lit "3. 或者在代码中直接传入 api_key 参数"]
       | OtherException => print [Lit "❌ 意外错误: "; PExc e]
       end).
End Demo.

End Main.

(** ** simple_example.py *)

Module SimpleExample.

Section Script.
Variable env : Env.

(** The module-level client. *)
Definition elevenlabs : M Client :=
  key ← os_getenv_default env "ELEVENLABS_API_KEY" "YOUR_API_KEY";
  ElevenLabs key.

Definition simple_text_to_speech (elevenlabs : Client) : M unit :=
  let text := "Hello! This is a simple example of using ElevenLabs API in Python." in
  audio ← client_generate env elevenlabs
            {| g_text := text;
               g_voice := VoiceStr "Rachel";
               g_model := "eleven_monolingual_v1";
               g_stream := None |};
  save env audio "simple_output.mp3";;
  print [Lit "Audio saved to simple_output.mp3"];;
  play env audio;;
  print [Lit "Playing audio..."].

Definition list_available_voices (elevenlabs : Client) : M unit :=
  voices ← client_voices_get_all env elevenlabs;
  print [Lit "Available voices:"];;
  for_each voices (fun voice =>
    print [Lit "- "; PStr (name voice); Lit " (ID: "; PStr (voice_id voice); Lit ")"]).

(** The script run as a program: the module body, then the
    [if __name__ == "__main__"] block. *)
Definition script : M unit :=
  client ← elevenlabs;
  print [Lit "🎤 Simple ElevenLabs Demo"];;
  print [Lit (str_mul "-" 30)];;
  list_available_voices client;;
  print [];;
  simple_text_to_speech client;;
  print [Lit (nl +:+ "✅ Demo completed!")].
End Script.

End SimpleExample.

(** The world before a run: nothing has happened, no file exists. *)
Definition world0 : World := {| trace := []; files := ∅ |}.

(** ** Simulated collaborators *)

(** The validation error of the SDK's [Voice] model for a missing
    [voice_id]. *)
Definition voice_id_required : Exc :=
  {| exc_class := ValueError;
     exc_msg := "1 validation error for Voice: voice_id field required" |}.

(** A remote service that answers every listing with [voices] and every
    synthesis with [audio]; helpers that never raise; the SDK's [Voice]
    rejects a missing [voice_id].  The strings of the simulations are ASCII,
    so that [unicode_lower] is never consulted. *)
Definition env_fixed (vars : gmap string string) (voices : list Voice)
    (audio : Audio) : Env :=
  {| environ := vars;
     voices_get_all := fun _ _ => inr voices;
     generate := fun _ _ _ => inr audio;
     save_raises := fun _ _ _ => None;
     play_raises := fun _ _ => None;
     stream_raises := fun _ _ => None;
     voice_without_id := fun _ => Some voice_id_required;
     unicode_lower := fun s => s |}.


(** A remote service whose listing works and whose synthesis always fails. *)
Definition quota_exceeded : Exc :=
  {| exc_class := OtherException; exc_msg := "quota_exceeded" |}.

Definition env_failing (vars : gmap string string) (voices : list Voice) : Env :=
  {| environ := vars;
     voices_get_all := fun _ _ => inr voices;
     generate := fun _ _ _ => inl quota_exceeded;
     save_raises := fun _ _ _ => None;
     play_raises := fun _ _ => None;
     stream_raises := fun _ _ => None;
     voice_without_id := fun _ => Some voice_id_required;
     unicode_lower := fun s => s |}.

(** The failing service behind an SDK that builds a [Voice] without
    [voice_id]. *)
Definition env_failing_unchecked (vars : gmap string string)
    (voices : list Voice) : Env :=
  {| environ := vars;
     voices_get_all := fun _ _ => inr voices;
     generate := fun _ _ _ => inl quota_exceeded;
     save_raises := fun _ _ _ => None;
     play_raises := fun _ _ => None;
     stream_raises := fun _ _ => None;
     voice_without_id := fun _ => None;
     unicode_lower := fun s => s |}.

Definition rachel : Voice :=
  {| voice_id := "21m00Tcm4TlvDq8ikWAM"; name := "Rachel";
     category := "premade"; description := None |}.

Definition drew : Voice :=
  {| voice_id := "29vD33N1CtxCmqQRPOHJ"; name := "Drew";
     category := "premade"; description := Some "well-rounded" |}.

Definition riff : list Byte.byte := String.list_byte_of_string "RIFF...".

(** Two voices whose names differ by the case of an accented letter, and a
    service that lists them behind a [str.lower] that knows this letter. *)
Definition emile_upper : Voice :=
  {| voice_id := "id-1"; name := "ÉMILE";
     category := "cloned"; description := None |}.

Definition emile_lower : Voice :=
  {| voice_id := "id-2"; name := "émile";
     category := "cloned"; description := None |}.

Definition env_accents : Env :=
  {| environ := ∅;
     voices_get_all := fun _ _ => inr [emile_upper; emile_lower];
     generate := fun _ _ _ => inr (AudioBytes riff);
     save_raises := fun _ _ _ => None;
     play_raises := fun _ _ => None;
     stream_raises := fun _ _ => None;
     voice_without_id := fun _ => Some voice_id_required;
     unicode_lower :=
       fun s => if String.eqb s "ÉMILE" then "émile" else s |}.

Definition test_demo : Main.ElevenLabsDemo :=
  {| Main.api_key := "test-key";
     Main.client := {| client_api_key := "test-key" |} |}.



(** The line that announces a voice of the comparison. *)
Definition voice_header (i : nat) (voice_name : string) : Event :=
  EvPrint [Lit (nl +:+ "🗣️  语音 "); PInt i; Lit ": "; PStr voice_name].

(** The files the comparison of voices can write. *)
Definition demo_voice_files : list string :=
  ["demo_voice_1_rachel.mp3"; "demo_voice_2_drew.mp3";
   "demo_voice_3_clyde.mp3"; "demo_voice_4_paul.mp3"].

(** ** Shapes of a computation *)

(** A computation only adds to the trace. *)
Definition appends {A} (m : M A) : Prop :=
  forall w, exists rest, trace (m w).1 = trace w ++ rest.

(** Seen through a projection [f] of the events, a computation adds
    exactly [xs], whatever the world it starts from. *)
Definition emits {A B} (f : Event -> list B) (m : M A) (xs : list B) : Prop :=
  forall w, flat_map f (trace (m w).1) = flat_map f (trace w) ++ xs.

(** A computation never raises. *)
Definition safe {A} (m : M A) : Prop :=
  forall w, exists w' a, m w = (w', inr a).

(** A computation changes no file outside [paths]. *)
Definition writes_within {A} (paths : list string) (m : M A) : Prop :=
  forall w p, p ∉ paths -> files (m w).1 !! p = files w !! p.

(** What a helper reads from an audio that another helper has read before:
    a buffer once more, an iterator nothing. *)
Definition second_read (a : Audio) : list Byte.byte :=
  match a with
  | AudioBytes b => b
  | AudioChunks _ => []
  end.

(** ** What the scenarios ask of the service *)

(** The [Voice(name=voice_name)] of the scenarios that name their voice. *)
Definition name_only (voice_name : string) : VoiceInit :=
  {| init_voice_id := None;
     init_name := Some voice_name;
     init_settings := None |}.

Definition named_voice_request (text voice_name model : string)
    (streamed : option bool) : GenerateRequest :=
  {| g_text := text;
     g_voice := VoiceObj (name_only voice_name);
     g_model := model;
     g_stream := streamed |}.

(** The request of a scenario that names its voice is sent only when the
    SDK builds that [Voice]. *)
Definition when_built (env : Env) (voice_name : string)
    (req : GenerateRequest) : list GenerateRequest :=
  match voice_without_id env (name_only voice_name) with
  | Some _ => []
  | None => [req]
  end.

(** The synthesis requests of [main], in order, for a listing [voices]: the
    basic one, the tuned one for the first listed voice when there is one,
    the streamed one and the four of the comparison; those that name their
    voice only when the SDK builds it. *)
Definition main_requests (env : Env) (voices : list Voice)
    : list GenerateRequest :=
  when_built env "Rachel"
    (named_voice_request
       "Hello! This is a demonstration of ElevenLabs text-to-speech API. The quality is quite impressive!"
       "Rachel" "eleven_monolingual_v1" None) ++
  match voices with
  | [] => []
  | first_voice :: _ =>
      [{| g_text := "This is an advanced example with custom voice settings. Notice the difference in tone and style.";
          g_voice :=
            VoiceObj {| init_voice_id := Some (voice_id first_voice);
                        init_name := None;
                        init_settings :=
                          Some {| stability := f_0_7;
                                  similarity_boost := f_0_8;
                                  style := f_0_2;
                                  use_speaker_boost := true |} |};
          g_model := "eleven_multilingual_v2";
          g_stream := None |}]
  end ++
  when_built env "Rachel"
    (named_voice_request
       "This is a streaming example. The audio should play in real-time as it's being generated."
       "Rachel" "eleven_turbo_v2" (Some true)) ++
  flat_map (fun voice_name =>
              when_built env voice_name
                (named_voice_request
                   "This is the same text spoken by different voices for comparison."
                   voice_name "eleven_monolingual_v1" None))
           ["Rachel"; "Drew"; "Clyde"; "Paul"].

(** The files [main] can write. *)
Definition main_files : list string :=
  ["demo_basic.mp3"; "demo_advanced.mp3"] ++ demo_voice_files.

(** What [main] prints when the credential is missing. *)
Definition configuration_help (e : Exc) : list Event :=
  [EvPrint [Lit "❌ 配置错误: "; PExc e];
   EvPrint [Lit (nl +:+ "🔧 设置说明:")];
   EvPrint [Lit "1. 获取 ElevenLabs API 密钥: https://elevenlabs.io/"];
   EvPrint [Lit "2. 设置环境变量: export ELEVENLABS_API_KEY='your_api_key'"];
   EvPrint [Lit "3. 或者在代码中直接传入 api_key 参数"]].

(** The block [list_voices] prints for one voice. *)
Definition voice_block (voice : Voice) : list Event :=
  [EvPrint [Lit "🗣️  "; PStr (name voice)];
   EvPrint [Lit "   ID: "; PStr (voice_id voice)];
   EvPrint [Lit "   类别: "; PStr (category voice)];
   EvPrint [Lit "   描述: "; PStr (str_or (description voice) "N/A")];
   EvPrint []].

(** ** What [simple_example.py] does up to its synthesis call *)

Definition simple_request : GenerateRequest :=
  {| g_text := "Hello! This is a simple example of using ElevenLabs API in Python.";
     g_voice := VoiceStr "Rachel";
     g_model := "eleven_monolingual_v1";
     g_stream := None |}.

(** The line [list_available_voices] prints for one voice. *)
Definition available_voice_line (voice : Voice) : Event :=
  EvPrint [Lit "- "; PStr (name voice); Lit " (ID: "; PStr (voice_id voice);
           Lit ")"].

(** The events of the script, for the key [k], up to the listing call. *)
Definition simple_start (k : string) : list Event :=
  [EvGetenv "ELEVENLABS_API_KEY"; EvNewClient k;
   EvPrint [Lit "🎤 Simple ElevenLabs Demo"];
   EvPrint [Lit (str_mul "-" 30)];
   EvGetAll k].

(** The events of the script from the answer [voices] of the listing up to
    the synthesis call. *)
Definition simple_listing (voices : list Voice) : list Event :=
  EvPrint [Lit "Available voices:"] ::
  map available_voice_line voices ++ [EvPrint []].

(** ** More simulated collaborators *)

(** A remote service whose listing raises [e]. *)
Definition env_no_listing (vars : gmap string string) (e : Exc) : Env :=
  {| environ := vars;
     voices_get_all := fun _ _ => inl e;
     generate := fun _ _ _ => inl e;
     save_raises := fun _ _ _ => None;
     play_raises := fun _ _ => None;
     stream_raises := fun _ _ => None;
     voice_without_id := fun _ => Some voice_id_required;
     unicode_lower := fun s => s |}.

Definition invalid_key : Exc :=
  {| exc_class := ValueError; exc_msg := "invalid_api_key" |}.

Definition with_key : gmap string string :=
  {[ "ELEVENLABS_API_KEY" := "test-key" ]}.

(** * Properties *)

(** Unfolding one layer of the monad. *)
Ltac unfold_monad :=
  unfold mbind, M_bind, bind, mret, M_ret, ret, raise, try_except,
    print, emit in *.

Lemma flat_map_snoc {A B} (f : A -> list B) (l : list A) (x : A) :
  flat_map f (l ++ [x]) = flat_map f l ++ f x.
Proof. rewrite flat_map_app. simpl. by rewrite app_nil_r. Qed.

Lemma truthy_Some_nonempty (k : string) : k <> "" -> truthy (Some k) = true.
Proof. by destruct k. Qed.

Lemma truthy_false_inv (o : option string) :
  truthy o = false -> o = None \/ o = Some "".
Proof. destruct o as [[|c s]|]; simpl; intros H; auto; discriminate. Qed.

(** ** Construction of the runner *)

Lemma init_falsy (env : Env) (api_key : option string) (w : World) :
  truthy api_key = false ->
  Main.__init__ env api_key w =
    match environ env !! "ELEVENLABS_API_KEY" with
    | Some (String _ _ as k) =>
        (log (EvNewClient k) (log (EvGetenv "ELEVENLABS_API_KEY") w),
         inr {| Main.api_key := k; Main.client := {| client_api_key := k |} |})
    | _ => (log (EvGetenv "ELEVENLABS_API_KEY") w, inl Main.api_key_required)
    end.
Proof.
  intros Hf. unfold Main.__init__, os_getenv. rewrite Hf. unfold_monad.
  by destruct (environ env !! "ELEVENLABS_API_KEY") as [[|c s]|].
Qed.

Lemma init_truthy (env : Env) (k : string) (w : World) :
  k <> "" ->
  Main.__init__ env (Some k) w =
    (log (EvNewClient k) w,
     inr {| Main.api_key := k; Main.client := {| client_api_key := k |} |}).
Proof.
  intros Hk. unfold Main.__init__. rewrite (truthy_Some_nonempty k Hk).
  unfold_monad. unfold ElevenLabs. unfold_monad. by destruct k.
Qed.

(** C1. Constructing the runner with no [api_key] while
    [ELEVENLABS_API_KEY] is unset or empty raises the [ValueError]
    "API key is required ...", builds no client and sends nothing to the
    network.  With a non-empty credential, passed or read from the
    environment, construction returns a runner holding a client built with
    that credential. *)
Theorem init_credential_check (env : Env) (w : World) :
  (truthy (environ env !! "ELEVENLABS_API_KEY") = false ->
   exists w',
     Main.__init__ env None w = (w', inl Main.api_key_required) /\
     exc_class Main.api_key_required = ValueError /\
     new_clients (trace w') = new_clients (trace w) /\
     network_calls (trace w') = network_calls (trace w)) /\
  (forall (api_key : option string) (k : string),
     k <> "" ->
     api_key = Some k \/
     (truthy api_key = false /\
      environ env !! "ELEVENLABS_API_KEY" = Some k) ->
     exists w',
       Main.__init__ env api_key w =
         (w', inr {| Main.api_key := k;
                     Main.client := {| client_api_key := k |} |}) /\
       new_clients (trace w') = new_clients (trace w) ++ [k] /\
       network_calls (trace w') = network_calls (trace w)).
Proof.
  split.
  - intros Henv. rewrite init_falsy by reflexivity.
    destruct (truthy_false_inv _ Henv) as [-> | ->];
      (eexists; split; [reflexivity |]);
      unfold new_clients, network_calls; simpl;
      rewrite !flat_map_snoc; simpl; by rewrite !app_nil_r.
  - intros api_key k Hk [-> | [Hf Henv]].
    + rewrite init_truthy by assumption.
      eexists; split; [reflexivity |].
      unfold new_clients, network_calls; simpl.
      rewrite !flat_map_snoc; simpl. by rewrite !app_nil_r.
    + rewrite init_falsy by assumption. rewrite Henv.
      destruct k as [|c k]; [done |].
      eexists; split; [reflexivity |].
      unfold new_clients, network_calls; simpl.
      rewrite !flat_map_snoc; simpl. by rewrite !app_nil_r.
Qed.

Lemma init_credential_check_witness :
  (exists w',
     Main.__init__ (env_fixed ∅ [rachel] (AudioBytes riff)) None world0 =
       (w', inl Main.api_key_required) /\
     exc_class Main.api_key_required = ValueError /\
     new_clients (trace w') = new_clients (trace world0) /\
     network_calls (trace w') = network_calls (trace world0)) /\
  (exists w',
     Main.__init__ (env_fixed ∅ [rachel] (AudioBytes riff))
       (Some "test-key") world0 = (w', inr test_demo) /\
     new_clients (trace w') = new_clients (trace world0) ++ ["test-key"] /\
     network_calls (trace w') = network_calls (trace world0)).
Proof.
  destruct (init_credential_check (env_fixed ∅ [rachel] (AudioBytes riff))
              world0) as [Hmissing Hgiven].
  split.
  - apply Hmissing. reflexivity.
  - apply (Hgiven (Some "test-key") "test-key"); [discriminate |].
    left. reflexivity.
Defined.

(** C9. An empty [api_key] is handled exactly as an absent one.  Whenever
    the parameter is falsy the environment variable is read and decides the
    outcome; a non-empty parameter is used as the credential without the
    environment being read, whatever it holds. *)
Theorem init_api_key_or_env (env : Env) (w : World) :
  Main.__init__ env (Some "") w = Main.__init__ env None w /\
  (forall api_key : option string,
     truthy api_key = false ->
     getenv_calls (trace (Main.__init__ env api_key w).1) =
       getenv_calls (trace w) ++ ["ELEVENLABS_API_KEY"] /\
     (Main.__init__ env api_key w).2 =
       match environ env !! "ELEVENLABS_API_KEY" with
       | Some (String _ _ as k) =>
           inr {| Main.api_key := k;
                  Main.client := {| client_api_key := k |} |}
       | _ => inl Main.api_key_required
       end) /\
  (forall k : string,
     k <> "" ->
     getenv_calls (trace (Main.__init__ env (Some k) w).1) =
       getenv_calls (trace w) /\
     (Main.__init__ env (Some k) w).2 =
       inr {| Main.api_key := k;
              Main.client := {| client_api_key := k |} |}).
Proof.
  split; [| split].
  - by rewrite !init_falsy.
  - intros api_key Hf. rewrite init_falsy by assumption.
    destruct (environ env !! "ELEVENLABS_API_KEY") as [[|c k]|]; simpl;
      unfold getenv_calls; rewrite !flat_map_snoc; simpl;
      by rewrite ?app_nil_r.
  - intros k Hk. rewrite init_truthy by assumption. simpl.
    unfold getenv_calls. rewrite flat_map_snoc. simpl.
    by rewrite app_nil_r.
Qed.

Lemma init_api_key_or_env_witness :
  (Main.__init__ (env_fixed {[ "ELEVENLABS_API_KEY" := "from-env" ]} [] (AudioBytes riff))
     (Some "") world0).2 =
    inr {| Main.api_key := "from-env";
           Main.client := {| client_api_key := "from-env" |} |} /\
  (Main.__init__ (env_fixed {[ "ELEVENLABS_API_KEY" := "from-env" ]} [] (AudioBytes riff))
     (Some "test-key") world0).2 = inr test_demo.
Proof.
  destruct (init_api_key_or_env
              (env_fixed {[ "ELEVENLABS_API_KEY" := "from-env" ]} []
                 (AudioBytes riff)) world0) as (_ & Hfalsy & Hgiven).
  split.
  - destruct (Hfalsy (Some "")) as [_ Hres]; [reflexivity |]. exact Hres.
  - destruct (Hgiven "test-key") as [_ Hres]; [discriminate |]. exact Hres.
Defined.

(** ** The monad *)

Lemma bind_run {A B} (m : M A) (k : A -> M B) (w : World) :
  (m ≫= k) w =
    match m w with
    | (w', inr a) => k a w'
    | (w', inl e) => (w', inl e)
    end.
Proof. reflexivity. Qed.

Lemma bind_ok {A B} (m : M A) (k : A -> M B) (w w' : World) (a : A) :
  m w = (w', inr a) -> (m ≫= k) w = k a w'.
Proof. intros H. by rewrite bind_run, H. Qed.

Lemma bind_raise {A B} (m : M A) (k : A -> M B) (w w' : World) (e : Exc) :
  m w = (w', inl e) -> (m ≫= k) w = (w', inl e).
Proof. intros H. by rewrite bind_run, H. Qed.

Lemma print_run (l : Line) (w : World) : print l w = (log (EvPrint l) w, inr tt).
Proof. reflexivity. Qed.

Lemma try_except_run {A} (body : M A) (handler : Exc -> M A) (w : World) :
  try_except body handler w =
    match body w with
    | (w', inl e) => handler e w'
    | (w', inr a) => (w', inr a)
    end.
Proof. unfold try_except. by destruct (body w) as [w' [e|a]]. Qed.

(** *** Computations only add to the trace *)

Create HintDb appends.

Lemma appends_ret {A} (a : A) : appends (mret a).
Proof. intros w. exists []. simpl. by rewrite app_nil_r. Qed.

Lemma appends_raise {A} (e : Exc) : appends (@raise A e).
Proof. intros w. exists []. simpl. by rewrite app_nil_r. Qed.

Lemma appends_emit (e : Event) : appends (emit e).
Proof. intros w. by exists [e]. Qed.

Lemma appends_print (l : Line) : appends (print l).
Proof. apply appends_emit. Qed.

Lemma appends_bind {A B} (m : M A) (k : A -> M B) :
  appends m -> (forall a, appends (k a)) -> appends (m ≫= k).
Proof.
  intros Hm Hk w. rewrite bind_run.
  destruct (Hm w) as [r1 H1]. destruct (m w) as [w1 [e|a]]; simpl in *.
  - by exists r1.
  - destruct (Hk a w1) as [r2 H2]. exists (r1 ++ r2).
    by rewrite H2, H1, app_assoc.
Qed.

Lemma appends_try_except {A} (body : M A) (handler : Exc -> M A) :
  appends body -> (forall e, appends (handler e)) ->
  appends (try_except body handler).
Proof.
  intros Hb Hh w. rewrite try_except_run.
  destruct (Hb w) as [r1 H1]. destruct (body w) as [w1 [e|a]]; simpl in *.
  - destruct (Hh e w1) as [r2 H2]. exists (r1 ++ r2).
    by rewrite H2, H1, app_assoc.
  - by exists r1.
Qed.

Lemma appends_for_each {A} (xs : list A) (body : A -> M unit) :
  (forall x, appends (body x)) -> appends (for_each xs body).
Proof.
  intros Hb. induction xs as [|x xs IH]; simpl.
  - apply appends_ret.
  - apply appends_bind; auto.
Qed.

Lemma appends_get_all (env : Env) (c : Client) :
  appends (client_voices_get_all env c).
Proof. intros w. by exists [EvGetAll (client_api_key c)]. Qed.

Lemma appends_generate (env : Env) (c : Client) (req : GenerateRequest) :
  appends (client_generate env c req).
Proof. intros w. by exists [EvGenerate (client_api_key c) req]. Qed.

Lemma appends_save (env : Env) (a : Audio) (p : string) : appends (save env a p).
Proof.
  intros w. exists [EvSave a p]. unfold save.
  by destruct (save_raises env (trace w) a p).
Qed.

Lemma appends_play (env : Env) (a : Audio) : appends (play env a).
Proof. intros w. by exists [EvPlay a]. Qed.

Lemma appends_stream (env : Env) (a : Audio) : appends (stream env a).
Proof. intros w. by exists [EvStream a]. Qed.

#[global] Hint Resolve appends_ret appends_raise appends_emit appends_print
  appends_get_all appends_generate appends_save appends_play appends_stream
  : appends.

Ltac solve_appends :=
  repeat first
    [ apply appends_bind; [| intros ?]
    | apply appends_try_except; [| intros ?]
    | apply appends_for_each; intros ?
    | progress auto with appends ].

Lemma bind_assoc_run {A B C} (m : M A) (f : A -> M B) (g : B -> M C)
    (w : World) :
  ((m ≫= f) ≫= g) w = (m ≫= (fun a => f a ≫= g)) w.
Proof. rewrite !bind_run. by destruct (m w) as [w1 [e|a]]. Qed.

(** ** The second entry point *)

Lemma simple_client_run (env : Env) (w : World) :
  SimpleExample.elevenlabs env w =
    let k := default "YOUR_API_KEY" (environ env !! "ELEVENLABS_API_KEY") in
    (log (EvNewClient k) (log (EvGetenv "ELEVENLABS_API_KEY") w),
     inr {| client_api_key := k |}).
Proof.
  unfold SimpleExample.elevenlabs, os_getenv_default, ElevenLabs.
  unfold_monad. by destruct (environ env !! "ELEVENLABS_API_KEY").
Qed.

Lemma get_all_run (env : Env) (c : Client) (w : World) :
  client_voices_get_all env c w =
    (log (EvGetAll (client_api_key c)) w,
     voices_get_all env (trace w) (client_api_key c)).
Proof. reflexivity. Qed.

(** C10. [simple_example.py] has no missing-credential check.  Its client
    is always built: with the value of [ELEVENLABS_API_KEY] when the variable
    is set, with the placeholder ['YOUR_API_KEY'] when it is unset.  With the
    variable unset the script goes on to ask the remote service for the voice
    listing with that placeholder, where the runner of [main.py] raises. *)
Theorem simple_example_placeholder_key (env : Env) (w : World) :
  (exists k,
     SimpleExample.elevenlabs env w =
       (log (EvNewClient k) (log (EvGetenv "ELEVENLABS_API_KEY") w),
        inr {| client_api_key := k |}) /\
     k = default "YOUR_API_KEY" (environ env !! "ELEVENLABS_API_KEY")) /\
  (environ env !! "ELEVENLABS_API_KEY" = None ->
   (exists rest,
      trace (SimpleExample.script env w).1 =
        trace w ++
        [EvGetenv "ELEVENLABS_API_KEY"; EvNewClient "YOUR_API_KEY";
         EvPrint [Lit "🎤 Simple ElevenLabs Demo"];
         EvPrint [Lit (str_mul "-" 30)];
         EvGetAll "YOUR_API_KEY"] ++ rest) /\
   (Main.__init__ env None w).2 = inl Main.api_key_required).
Proof.
  split.
  - eexists. split; [apply simple_client_run | reflexivity].
  - intros Hunset. split.
    + unfold SimpleExample.script.
      erewrite bind_ok by apply simple_client_run.
      rewrite Hunset. simpl default.
      erewrite bind_ok by apply print_run.
      erewrite bind_ok by apply print_run.
      set (w3 := log _ (log _ (log _ (log _ w)))).
      unfold SimpleExample.list_available_voices.
      rewrite bind_assoc_run.
      destruct (voices_get_all env (trace w3) "YOUR_API_KEY")
        as [e|voices] eqn:Hlisting.
      * erewrite bind_raise
          by (rewrite get_all_run; simpl client_api_key; by rewrite Hlisting).
        exists []. simpl. by rewrite <- !app_assoc.
      * erewrite bind_ok
          by (rewrite get_all_run; simpl client_api_key; by rewrite Hlisting).
        match goal with
        | |- context [trace (?m ?w0).1] =>
            assert (Hrest : appends m)
              by (unfold SimpleExample.simple_text_to_speech; solve_appends);
            destruct (Hrest w0) as [rest ->]
        end.
        exists rest. simpl. by rewrite <- !app_assoc.
    + rewrite init_falsy by reflexivity. by rewrite Hunset.
Qed.

Lemma simple_example_placeholder_key_witness :
  (exists rest,
     trace (SimpleExample.script (env_fixed ∅ [rachel] (AudioBytes riff))
              world0).1 =
       trace world0 ++
       [EvGetenv "ELEVENLABS_API_KEY"; EvNewClient "YOUR_API_KEY";
        EvPrint [Lit "🎤 Simple ElevenLabs Demo"];
        EvPrint [Lit (str_mul "-" 30)];
        EvGetAll "YOUR_API_KEY"] ++ rest) /\
  (Main.__init__ (env_fixed ∅ [rachel] (AudioBytes riff)) None world0).2 =
    inl Main.api_key_required.
Proof.
  destruct (simple_example_placeholder_key
              (env_fixed ∅ [rachel] (AudioBytes riff)) world0) as [_ Hunset].
  apply Hunset. reflexivity.
Defined.

(** ** Looking a voice up by name *)

Lemma scan_voices_Some (env : Env) (voices : list Voice) (q : string) (v : Voice) :
  Main.scan_voices env voices q = Some v <->
  exists pre post,
    voices = pre ++ v :: post /\
    lower env (name v) = lower env q /\
    Forall (fun u => lower env (name u) <> lower env q) pre.
Proof.
  induction voices as [|u rest IH]; simpl.
  - split; [discriminate |]. intros (pre & post & Heq & _).
    by destruct pre.
  - destruct (String.eqb_spec (lower env (name u)) (lower env q)) as [Hm | Hm].
    + split.
      * intros [= ->]. by exists [], rest.
      * intros (pre & post & Heq & Hv & Hpre).
        destruct pre as [|u' pre]; simpl in Heq.
        -- by inversion Heq.
        -- inversion Heq; subst u'. inversion Hpre; subst. contradiction.
    + rewrite IH. split.
      * intros (pre & post & -> & Hv & Hpre).
        exists (u :: pre), post. repeat split; auto.
      * intros (pre & post & Heq & Hv & Hpre).
        destruct pre as [|u' pre]; simpl in Heq.
        -- inversion Heq; subst u. contradiction.
        -- inversion Heq; subst. inversion Hpre; subst.
           by exists pre, post.
Qed.

Lemma scan_voices_None (env : Env) (voices : list Voice) (q : string) :
  Main.scan_voices env voices q = None <->
  Forall (fun u => lower env (name u) <> lower env q) voices.
Proof.
  induction voices as [|u rest IH]; simpl.
  - split; auto.
  - destruct (String.eqb_spec (lower env (name u)) (lower env q)) as [Hm | Hm].
    + split; [discriminate |]. intros H. inversion H; subst. contradiction.
    + rewrite IH. split.
      * intros H. by constructor.
      * intros H. by inversion H.
Qed.

Lemma scan_voices_lower (env : Env) (voices : list Voice) (q1 q2 : string) :
  lower env q1 = lower env q2 ->
  Main.scan_voices env voices q1 = Main.scan_voices env voices q2.
Proof.
  intros Hq. induction voices as [|u rest IH]; simpl; [done |].
  by rewrite Hq, IH.
Qed.

(** C2. On a listing returned by the remote service, [get_voice_by_name]
    returns without raising.  The result is the first voice of the listing
    whose name and the query are equal once lowered by [str.lower], and
    [None] exactly when no voice of the listing matches.  Two queries with
    the same lowering, such as "rachel" and "Rachel", get the same result.
    This holds for every name and query, whatever [str.lower] does outside
    ASCII. *)
Theorem get_voice_by_name_first_match (env : Env)
    (self : Main.ElevenLabsDemo) (w : World) (voices : list Voice) :
  voices_get_all env (trace w) (client_api_key (Main.client self))
    = inr voices ->
  (forall q, exists r,
     Main.get_voice_by_name env self q w =
       (log (EvGetAll (client_api_key (Main.client self))) w, inr r) /\
     (forall v,
        r = Some v <->
        exists pre post,
          voices = pre ++ v :: post /\
          lower env (name v) = lower env q /\
          Forall (fun u => lower env (name u) <> lower env q) pre) /\
     (r = None <->
      Forall (fun u => lower env (name u) <> lower env q) voices)) /\
  (forall q1 q2,
     lower env q1 = lower env q2 ->
     Main.get_voice_by_name env self q1 w =
       Main.get_voice_by_name env self q2 w) /\
  Main.get_voice_by_name env self "rachel" w =
    Main.get_voice_by_name env self "Rachel" w.
Proof.
  intros Hlisting.
  assert (Hrun : forall q,
            Main.get_voice_by_name env self q w =
              (log (EvGetAll (client_api_key (Main.client self))) w,
               inr (Main.scan_voices env voices q))).
  { intros q. unfold Main.get_voice_by_name.
    erewrite bind_ok by (rewrite get_all_run; by rewrite Hlisting).
    reflexivity. }
  split; [| split].
  - intros q. exists (Main.scan_voices env voices q).
    split; [apply Hrun |]. split.
    + intros v. apply scan_voices_Some.
    + apply scan_voices_None.
  - intros q1 q2 Hq. rewrite !Hrun. by rewrite (scan_voices_lower _ _ _ _ Hq).
  - rewrite !Hrun. by rewrite (scan_voices_lower env voices "rachel" "Rachel").
Qed.

Lemma get_voice_by_name_first_match_witness :
  (Main.get_voice_by_name (env_fixed ∅ [drew; rachel] (AudioBytes riff))
     test_demo "RACHEL" world0).2 = inr (Some rachel) /\
  (Main.get_voice_by_name (env_fixed ∅ [drew; rachel] (AudioBytes riff))
     test_demo "Clyde" world0).2 = inr None /\
  Main.get_voice_by_name (env_fixed ∅ [drew; rachel] (AudioBytes riff))
    test_demo "rachel" world0 =
  Main.get_voice_by_name (env_fixed ∅ [drew; rachel] (AudioBytes riff))
    test_demo "Rachel" world0.
Proof.
  destruct (get_voice_by_name_first_match
              (env_fixed ∅ [drew; rachel] (AudioBytes riff))
              test_demo world0 [drew; rachel] eq_refl)
    as (Hscan & _ & Hcase).
  split; [| split; [| exact Hcase]].
  - destruct (Hscan "RACHEL") as (r & -> & Hsome & _). simpl.
    f_equal. apply Hsome. exists [drew], []. repeat split.
    repeat constructor. discriminate.
  - destruct (Hscan "Clyde") as (r & -> & _ & Hnone). simpl.
    f_equal. apply Hnone. repeat constructor; discriminate.
Defined.

(** Beyond ASCII: the query "émile" finds the voice listed first, "ÉMILE",
    whose lowered name it equals, and not the second one, which it equals
    letter for letter. *)
Lemma get_voice_by_name_accented :
  lower env_accents "ÉMILE" = "émile" /\
  (Main.get_voice_by_name env_accents test_demo "émile" world0).2 =
    inr (Some emile_upper).
Proof. split; vm_compute; reflexivity. Qed.

(** ** Computations that never raise *)

Lemma safe_ret {A} (a : A) : safe (mret a).
Proof. intros w. by exists w, a. Qed.

Lemma safe_emit (e : Event) : safe (emit e).
Proof. intros w. by exists (log e w), tt. Qed.

Lemma safe_print (l : Line) : safe (print l).
Proof. apply safe_emit. Qed.

Lemma safe_bind {A B} (m : M A) (k : A -> M B) :
  safe m -> (forall a, safe (k a)) -> safe (m ≫= k).
Proof.
  intros Hm Hk w. destruct (Hm w) as (w1 & a & H1).
  rewrite (bind_ok _ _ _ _ _ H1). apply Hk.
Qed.

Lemma safe_try_except {A} (body : M A) (handler : Exc -> M A) :
  (forall e, safe (handler e)) -> safe (try_except body handler).
Proof.
  intros Hh w. rewrite try_except_run.
  destruct (body w) as [w1 [e|a]]; [apply Hh | by exists w1, a].
Qed.

Lemma safe_for_each {A} (xs : list A) (body : A -> M unit) :
  (forall x, safe (body x)) -> safe (for_each xs body).
Proof.
  intros Hb. induction xs as [|x xs IH]; simpl.
  - apply safe_ret.
  - apply safe_bind; auto.
Qed.

Ltac solve_safe :=
  repeat first
    [ apply safe_try_except; intros ?
    | apply safe_bind; [| intros ?]
    | apply safe_for_each; intros ?
    | apply safe_print
    | apply safe_emit
    | apply safe_ret ].

(** ** Building a [Voice] *)

Lemma new_voice_run (env : Env) (v : VoiceInit) (w : World) :
  new_voice env v w =
    (w, match init_voice_id v with
        | Some _ => inr v
        | None =>
            match voice_without_id env v with
            | Some e => inl e
            | None => inr v
            end
        end).
Proof.
  unfold new_voice.
  by destruct (init_voice_id v); [| destruct (voice_without_id env v)].
Qed.

Lemma appends_new_voice (env : Env) (v : VoiceInit) :
  appends (new_voice env v).
Proof. intros w. exists []. rewrite new_voice_run. simpl. by rewrite app_nil_r. Qed.

#[global] Hint Resolve appends_new_voice : appends.

(** What a helper reads right after the synthesis call: everything. *)
Lemma received_fresh (tr : list Event) (k : string) (req : GenerateRequest)
    (a : Audio) :
  received (tr ++ [EvGenerate k req]) a = audio_bytes a.
Proof. destruct a; [done |]. unfold received. by rewrite rev_unit. Qed.

(** ** What a computation adds to a projection of the trace *)

Section Emits.
Context {B : Type} (f : Event -> list B).

Lemma emits_ret {A} (a : A) : emits f (mret a) [].
Proof. intros w. simpl. by rewrite app_nil_r. Qed.

Lemma emits_raise {A} (e : Exc) : emits f (@raise A e) [].
Proof. intros w. simpl. by rewrite app_nil_r. Qed.

Lemma emits_emit (e : Event) : emits f (emit e) (f e).
Proof. intros w. simpl. apply flat_map_snoc. Qed.

Lemma emits_print (l : Line) : emits f (print l) (f (EvPrint l)).
Proof. apply emits_emit. Qed.

Lemma emits_get_all (env : Env) (c : Client) :
  emits f (client_voices_get_all env c) (f (EvGetAll (client_api_key c))).
Proof. intros w. simpl. apply flat_map_snoc. Qed.

Lemma emits_generate (env : Env) (c : Client) (req : GenerateRequest) :
  emits f (client_generate env c req)
    (f (EvGenerate (client_api_key c) req)).
Proof. intros w. simpl. apply flat_map_snoc. Qed.

Lemma emits_save (env : Env) (a : Audio) (p : string) :
  emits f (save env a p) (f (EvSave a p)).
Proof.
  intros w. unfold save.
  destruct (save_raises env (trace w) a p); simpl; apply flat_map_snoc.
Qed.

Lemma emits_play (env : Env) (a : Audio) :
  emits f (play env a) (f (EvPlay a)).
Proof. intros w. simpl. apply flat_map_snoc. Qed.

Lemma emits_stream (env : Env) (a : Audio) :
  emits f (stream env a) (f (EvStream a)).
Proof. intros w. simpl. apply flat_map_snoc. Qed.

Lemma emits_new_voice (env : Env) (v : VoiceInit) :
  emits f (new_voice env v) [].
Proof.
  intros w. rewrite new_voice_run.
  destruct (init_voice_id v); [| destruct (voice_without_id env v)];
    simpl; by rewrite app_nil_r.
Qed.

(** A scenario that names its voice adds what follows the construction of
    the [Voice] when the SDK builds it, and nothing when the SDK raises. *)
Lemma emits_named_voice {A} (env : Env) (voice_name : string)
    (k : VoiceInit -> M A) (xs : list B) :
  emits f (k (name_only voice_name)) xs ->
  emits f (new_voice env (name_only voice_name) ≫= k)
    (match voice_without_id env (name_only voice_name) with
     | Some _ => []
     | None => xs
     end).
Proof.
  intros Hk w. rewrite bind_run, new_voice_run. simpl.
  destruct (voice_without_id env (name_only voice_name)); simpl.
  - by rewrite app_nil_r.
  - apply Hk.
Qed.

(** A [Voice] that has its identifier is built. *)
Lemma emits_voice_with_id {A} (env : Env) (v : VoiceInit) (vid : string)
    (k : VoiceInit -> M A) (xs : list B) :
  init_voice_id v = Some vid ->
  emits f (k v) xs -> emits f (new_voice env v ≫= k) xs.
Proof.
  intros Hid Hk w. rewrite bind_run, new_voice_run, Hid. apply Hk.
Qed.

(** What follows a call adds nothing: the sum is what the call adds,
    whether it raises or not. *)
Lemma emits_bind_quiet {A C} (m : M A) (k : A -> M C) (xs : list B) :
  emits f m xs -> (forall a, emits f (k a) []) -> emits f (m ≫= k) xs.
Proof.
  intros Hm Hk w. rewrite bind_run. specialize (Hm w).
  destruct (m w) as [w1 [e|a]]; simpl in *; [done |].
  by rewrite Hk, Hm, app_nil_r.
Qed.

(** After a computation that never raises, the rest always runs. *)
Lemma emits_bind_safe {A C} (m : M A) (k : A -> M C) (xs ys : list B) :
  safe m -> emits f m xs -> (forall a, emits f (k a) ys) ->
  emits f (m ≫= k) (xs ++ ys).
Proof.
  intros Hs Hm Hk w. destruct (Hs w) as (w1 & a & H1).
  rewrite (bind_ok _ _ _ _ _ H1). specialize (Hm w). rewrite H1 in Hm.
  simpl in Hm. by rewrite Hk, Hm, app_assoc.
Qed.

Lemma emits_try_except {A} (body : M A) (handler : Exc -> M A)
    (xs : list B) :
  emits f body xs -> (forall e, emits f (handler e) []) ->
  emits f (try_except body handler) xs.
Proof.
  intros Hb Hh w. rewrite try_except_run. specialize (Hb w).
  destruct (body w) as [w1 [e|a]]; simpl in *; [| done].
  by rewrite Hh, Hb, app_nil_r.
Qed.

Lemma emits_for_each {A} (xs : list A) (body : A -> M unit)
    (g : A -> list B) :
  (forall x, safe (body x)) -> (forall x, emits f (body x) (g x)) ->
  emits f (for_each xs body) (flat_map g xs).
Proof.
  intros Hs Hb. induction xs as [|x xs IH]; simpl.
  - apply emits_ret.
  - apply emits_bind_safe; auto.
Qed.
End Emits.

(** Nothing of the projection is added by a computation built from calls
    that add nothing. *)
Ltac solve_quiet :=
  repeat first
    [ apply emits_try_except; [| intros ?]
    | apply emits_bind_quiet; [| intros ?]
    | apply emits_print
    | apply emits_generate
    | apply emits_save
    | apply emits_play
    | apply emits_stream
    | apply emits_new_voice
    | apply emits_get_all
    | apply emits_ret
    | apply emits_raise ].

(** ** The scenarios never raise *)

Section Scenarios.
Variable env : Env.
Variable self : Main.ElevenLabsDemo.

Lemma safe_basic_tts (text voice_name output_file : string) :
  safe (Main.basic_tts env self text voice_name output_file).
Proof. unfold Main.basic_tts. solve_safe. Qed.

Lemma safe_advanced_tts_with_settings (text vid : string)
    (s sb st : float) (usb : bool) (output_file : string) :
  safe (Main.advanced_tts_with_settings env self text vid s sb st usb
          output_file).
Proof. unfold Main.advanced_tts_with_settings. solve_safe. Qed.

Lemma safe_streaming_tts (text voice_name : string) :
  safe (Main.streaming_tts env self text voice_name).
Proof. unfold Main.streaming_tts. solve_safe. Qed.

Lemma safe_demo_voice (text : string) (iv : nat * string) :
  safe (Main.demo_voice env self text iv).
Proof. destruct iv as [i voice_name]. unfold Main.demo_voice. solve_safe. Qed.

Lemma safe_demo_multiple_voices (text : string) :
  safe (Main.demo_multiple_voices env self text).
Proof.
  unfold Main.demo_multiple_voices.
  apply safe_bind; [apply safe_print | intros _].
  apply safe_for_each, safe_demo_voice.
Qed.

(** ** The synthesis calls of each scenario *)

Lemma basic_tts_generates (text voice_name output_file : string) :
  emits generate_of (Main.basic_tts env self text voice_name output_file)
    (when_built env voice_name
       (named_voice_request text voice_name "eleven_monolingual_v1" None)).
Proof.
  unfold Main.basic_tts.
  do 2 (apply (emits_bind_safe _ _ _ [] _);
        [apply safe_print | apply emits_print | intros _]).
  apply emits_try_except; [| intros e; apply emits_print].
  apply (emits_named_voice generate_of env voice_name). solve_quiet.
Qed.

Lemma advanced_tts_generates (text vid : string) (s sb st : float)
    (usb : bool) (output_file : string) :
  emits generate_of
    (Main.advanced_tts_with_settings env self text vid s sb st usb
       output_file)
    [{| g_text := text;
        g_voice :=
          VoiceObj {| init_voice_id := Some vid;
                      init_name := None;
                      init_settings :=
                        Some {| stability := s;
                                similarity_boost := sb;
                                style := st;
                                use_speaker_boost := usb |} |};
        g_model := "eleven_multilingual_v2";
        g_stream := None |}].
Proof.
  unfold Main.advanced_tts_with_settings.
  do 5 (apply (emits_bind_safe _ _ _ [] _);
        [apply safe_print | apply emits_print | intros _]).
  apply emits_try_except; [| intros e; apply emits_print].
  apply (emits_voice_with_id generate_of env _ vid); [reflexivity |].
  solve_quiet.
Qed.

Lemma streaming_tts_generates (text voice_name : string) :
  emits generate_of (Main.streaming_tts env self text voice_name)
    (when_built env voice_name
       (named_voice_request text voice_name "eleven_turbo_v2" (Some true))).
Proof.
  unfold Main.streaming_tts.
  do 2 (apply (emits_bind_safe _ _ _ [] _);
        [apply safe_print | apply emits_print | intros _]).
  apply emits_try_except; [| intros e; apply emits_print].
  apply (emits_named_voice generate_of env voice_name). solve_quiet.
Qed.

Lemma demo_voice_generates (text : string) (iv : nat * string) :
  emits generate_of (Main.demo_voice env self text iv)
    (when_built env iv.2
       (named_voice_request text iv.2 "eleven_monolingual_v1" None)).
Proof.
  destruct iv as [i voice_name]. unfold Main.demo_voice.
  apply (emits_bind_safe _ _ _ [] _); [apply safe_print | apply emits_print |].
  intros _. apply emits_try_except; [| intros e; apply emits_print].
  apply (emits_named_voice generate_of env voice_name). solve_quiet.
Qed.

Lemma demo_multiple_voices_generates (text : string) :
  emits generate_of (Main.demo_multiple_voices env self text)
    (flat_map (fun voice_name =>
                 when_built env voice_name
                   (named_voice_request text voice_name
                      "eleven_monolingual_v1" None))
              ["Rachel"; "Drew"; "Clyde"; "Paul"]).
Proof.
  unfold Main.demo_multiple_voices.
  apply (emits_bind_safe _ _ _ [] _); [apply safe_print | apply emits_print |].
  intros _.
  exact (emits_for_each generate_of _ _ _ (safe_demo_voice text)
           (demo_voice_generates text)).
Qed.
End Scenarios.

Lemma new_voice_with_id (env : Env) (v : VoiceInit) (vid : string)
    (w : World) :
  init_voice_id v = Some vid -> new_voice env v w = (w, inr v).
Proof. intros Hid. by rewrite new_voice_run, Hid. Qed.

(** C7. Whatever their inputs and whatever the collaborators answer, the
    model passed to the service is fixed by the scenario.  [basic_tts] and
    [streaming_tts] issue at most one synthesis call, and exactly one when the
    SDK builds their [Voice(name=...)]: [basic_tts] with
    "eleven_monolingual_v1", [streaming_tts] with "eleven_turbo_v2" and
    [stream=True].  [demo_multiple_voices] issues, for those of Rachel, Drew,
    Clyde and Paul whose [Voice] is built, one call each, in this order, with
    "eleven_monolingual_v1".  [advanced_tts_with_settings] always issues
    exactly one call, with "eleven_multilingual_v2". *)
Theorem fixed_model_selectors (env : Env) (self : Main.ElevenLabsDemo)
    (w : World) :
  (forall text voice_name output_file,
     generate_calls
       (trace (Main.basic_tts env self text voice_name output_file w).1) =
       generate_calls (trace w) ++
       match voice_without_id env (name_only voice_name) with
       | Some _ => []
       | None =>
           [{| g_text := text;
               g_voice := VoiceObj (name_only voice_name);
               g_model := "eleven_monolingual_v1";
               g_stream := None |}]
       end) /\
  (forall text,
     generate_calls (trace (Main.demo_multiple_voices env self text w).1) =
       generate_calls (trace w) ++
       flat_map
         (fun voice_name =>
            match voice_without_id env (name_only voice_name) with
            | Some _ => []
            | None =>
                [{| g_text := text;
                    g_voice := VoiceObj (name_only voice_name);
                    g_model := "eleven_monolingual_v1";
                    g_stream := None |}]
            end)
         ["Rachel"; "Drew"; "Clyde"; "Paul"]) /\
  (forall text vid s sb st usb output_file,
     generate_calls
       (trace (Main.advanced_tts_with_settings env self text vid s sb st usb
                 output_file w).1) =
       generate_calls (trace w) ++
       [{| g_text := text;
           g_voice :=
             VoiceObj {| init_voice_id := Some vid;
                         init_name := None;
                         init_settings :=
                           Some {| stability := s;
                                   similarity_boost := sb;
                                   style := st;
                                   use_speaker_boost := usb |} |};
           g_model := "eleven_multilingual_v2";
           g_stream := None |}]) /\
  (forall text voice_name,
     generate_calls (trace (Main.streaming_tts env self text voice_name w).1) =
       generate_calls (trace w) ++
       match voice_without_id env (name_only voice_name) with
       | Some _ => []
       | None =>
           [{| g_text := text;
               g_voice := VoiceObj (name_only voice_name);
               g_model := "eleven_turbo_v2";
               g_stream := Some true |}]
       end).
Proof.
  repeat split.
  - intros text voice_name output_file.
    apply (basic_tts_generates env self).
  - intros text. apply (demo_multiple_voices_generates env self).
  - intros text vid s sb st usb output_file.
    apply (advanced_tts_generates env self).
  - intros text voice_name. apply (streaming_tts_generates env self).
Qed.

(** A tuning outside the documented range: stability 1.5, similarity boost
    -2, style infinite. *)
Example advanced_tts_out_of_range (env : Env) (self : Main.ElevenLabsDemo)
    (w : World) :
  let s := S754_finite false 3 (-1) in
  let sb := S754_finite true 1 1 in
  let st := S754_infinity false in
  generate_calls
    (trace (Main.advanced_tts_with_settings env self "Hi" "v1" s sb st false
              "o.mp3" w).1) =
    generate_calls (trace w) ++
    [{| g_text := "Hi";
        g_voice :=
          VoiceObj {| init_voice_id := Some "v1";
                      init_name := None;
                      init_settings :=
                        Some {| stability := s; similarity_boost := sb;
                                style := st; use_speaker_boost := false |} |};
        g_model := "eleven_multilingual_v2";
        g_stream := None |}].
Proof. intros s sb st. apply advanced_tts_generates. Qed.

(** C8. [advanced_tts_with_settings] checks and changes nothing: for every
    stability, similarity boost, style (any binary64 value, in [0,1] or not)
    and speaker-boost flag, it issues exactly one synthesis call, whose voice
    settings hold the four values as given, and it prints them as given
    before the call. *)
Theorem tuning_forwarded_unchanged (env : Env) (self : Main.ElevenLabsDemo)
    (w : World) (text vid : string) (s sb st : float) (usb : bool)
    (output_file : string) :
  generate_calls
    (trace (Main.advanced_tts_with_settings env self text vid s sb st usb
              output_file w).1) =
    generate_calls (trace w) ++
    [{| g_text := text;
        g_voice :=
          VoiceObj {| init_voice_id := Some vid;
                      init_name := None;
                      init_settings :=
                        Some {| stability := s;
                                similarity_boost := sb;
                                style := st;
                                use_speaker_boost := usb |} |};
        g_model := "eleven_multilingual_v2";
        g_stream := None |}] /\
  exists rest,
    trace (Main.advanced_tts_with_settings env self text vid s sb st usb
             output_file w).1 =
      trace w ++
      [EvPrint [Lit "🎛️  高级文本转语音设置:"];
       EvPrint [Lit "   稳定性: "; PFloat s];
       EvPrint [Lit "   相似度增强: "; PFloat sb];
       EvPrint [Lit "   风格: "; PFloat st];
       EvPrint [Lit "   扬声器增强: "; PBool usb];
       EvGenerate (client_api_key (Main.client self))
         {| g_text := text;
            g_voice :=
              VoiceObj {| init_voice_id := Some vid;
                          init_name := None;
                          init_settings :=
                            Some {| stability := s;
                                    similarity_boost := sb;
                                    style := st;
                                    use_speaker_boost := usb |} |};
            g_model := "eleven_multilingual_v2";
            g_stream := None |}] ++ rest.
Proof.
  split; [apply advanced_tts_generates |].
  unfold Main.advanced_tts_with_settings.
  do 5 (erewrite bind_ok by apply print_run).
  rewrite try_except_run.
  erewrite bind_ok by (apply new_voice_with_id with (vid := vid); reflexivity).
  rewrite bind_run. unfold client_generate at 1.
  match goal with
  | |- context [generate env ?tr ?k ?r] => destruct (generate env tr k r) as [e|audio]
  end.
  - eexists. simpl. rewrite <- !app_assoc. simpl. reflexivity.
  - match goal with
    | |- context [match ?m ?w0 with _ => _ end] =>
        assert (Hrest : appends m) by solve_appends;
        destruct (Hrest w0) as [rest Hrest'];
        destruct (m w0) as [w1 [e|[]]]
    end.
    + simpl in *. eexists. rewrite Hrest'. simpl.
      rewrite <- !app_assoc. simpl. reflexivity.
    + simpl in *. eexists. rewrite Hrest'. simpl.
      rewrite <- !app_assoc. simpl. reflexivity.
Qed.

(** ** Streaming *)

Ltac norm_trace := simpl; rewrite <- ?app_assoc; simpl.

Lemma streaming_tts_run (env : Env) (self : Main.ElevenLabsDemo) (w : World)
    (text voice_name : string) :
  let key := client_api_key (Main.client self) in
  let req :=
    {| g_text := text;
       g_voice := VoiceObj (name_only voice_name);
       g_model := "eleven_turbo_v2";
       g_stream := Some true |} in
  let tr :=
    trace w ++
    [EvPrint [Lit "🌊 流式文本转语音: '"; PStr (str_take 50 text); Lit "...'"];
     EvPrint [Lit "🎵 实时播放中..."]] in
  Main.streaming_tts env self text voice_name w =
    match voice_without_id env (name_only voice_name) with
    | Some e =>
        ({| trace := tr ++ [EvPrint [Lit "❌ 错误: "; PExc e]];
            files := files w |}, inr tt)
    | None =>
        match generate env tr key req with
        | inl e =>
            ({| trace := tr ++ [EvGenerate key req;
                                EvPrint [Lit "❌ 错误: "; PExc e]];
                files := files w |}, inr tt)
        | inr a =>
            ({| trace :=
                  tr ++ [EvGenerate key req; EvStream a;
                         EvPrint
                           match stream_raises env
                                   (tr ++ [EvGenerate key req]) a with
                           | Some e => [Lit "❌ 错误: "; PExc e]
                           | None => [Lit "✅ 流式播放完成"]
                           end];
                files := files w |}, inr tt)
        end
    end.
Proof.
  intros key req tr. subst tr. unfold Main.streaming_tts.
  do 2 (erewrite bind_ok by apply print_run).
  rewrite try_except_run, bind_run, new_voice_run.
  cbn [init_voice_id]. fold (name_only voice_name).
  destruct (voice_without_id env (name_only voice_name)) as [e|].
  - rewrite print_run. unfold log. by norm_trace.
  - rewrite bind_run. unfold client_generate, log.
    norm_trace. fold key req.
    destruct (generate env _ key req) as [e|a]; norm_trace.
    + rewrite print_run. unfold log. by norm_trace.
    + rewrite bind_run. norm_trace.
      destruct (stream_raises env _ a); rewrite print_run; unfold log;
        by norm_trace.
Qed.

(** ** Basic synthesis *)

(** The first helper called after the synthesis reads the whole audio. *)
Lemma received_first (tr pre : list Event) (k : string)
    (req : GenerateRequest) (a : Audio) :
  received (tr ++ pre ++ [EvGenerate k req]) a = audio_bytes a.
Proof.
  destruct a; [done |]. unfold received.
  by rewrite app_assoc, rev_unit.
Qed.

(** A helper called after [save], with console lines in between, reads what
    [save] has left. *)
Lemma received_after_save (tr : list Event) (k : string)
    (req : GenerateRequest) (a : Audio) (p : string) (lines : list Line) :
  received (tr ++ EvGenerate k req :: EvSave a p :: map EvPrint lines) a =
    second_read a.
Proof.
  destruct a as [b|cs]; [done |]. unfold received, second_read.
  rewrite rev_app_distr. cbn [rev]. rewrite <- !app_assoc.
  induction lines as [|l lines IH] using rev_ind.
  - simpl. by rewrite decide_True.
  - rewrite map_app, rev_app_distr. simpl. exact IH.
Qed.

Lemma basic_tts_run (env : Env) (self : Main.ElevenLabsDemo) (w : World)
    (text voice_name output_file : string) :
  let key := client_api_key (Main.client self) in
  let req :=
    {| g_text := text;
       g_voice := VoiceObj (name_only voice_name);
       g_model := "eleven_monolingual_v1";
       g_stream := None |} in
  let tr :=
    trace w ++
    [EvPrint [Lit "🔊 基础文本转语音: '"; PStr (str_take 50 text); Lit "...'"];
     EvPrint [Lit "📢 使用语音: "; PStr voice_name]] in
  Main.basic_tts env self text voice_name output_file w =
    match voice_without_id env (name_only voice_name) with
    | Some e =>
        ({| trace := tr ++ [EvPrint [Lit "❌ 错误: "; PExc e]];
            files := files w |}, inr tt)
    | None =>
        match generate env tr key req with
        | inl e =>
            ({| trace := tr ++ [EvGenerate key req;
                                EvPrint [Lit "❌ 错误: "; PExc e]];
                files := files w |}, inr tt)
        | inr audio =>
            match save_raises env (tr ++ [EvGenerate key req]) audio
                    output_file with
            | Some e =>
                ({| trace := tr ++ [EvGenerate key req;
                                    EvSave audio output_file;
                                    EvPrint [Lit "❌ 错误: "; PExc e]];
                    files := files w |}, inr tt)
            | None =>
                let tr' :=
                  tr ++ [EvGenerate key req; EvSave audio output_file;
                         EvPrint [Lit "✅ 音频已保存到: "; PStr output_file];
                         EvPrint [Lit "🎵 播放音频..."]] in
                ({| trace :=
                      tr' ++ EvPlay audio ::
                        match play_raises env tr' audio with
                        | Some e => [EvPrint [Lit "❌ 错误: "; PExc e]]
                        | None => []
                        end;
                    files :=
                      <[output_file := audio_bytes audio]> (files w) |},
                 inr tt)
            end
        end
    end.
Proof.
  intros key req tr. subst tr. unfold Main.basic_tts.
  do 2 (erewrite bind_ok by apply print_run).
  rewrite try_except_run, bind_run, new_voice_run.
  cbn [init_voice_id]. fold (name_only voice_name).
  destruct (voice_without_id env (name_only voice_name)) as [e|].
  { rewrite print_run. unfold log. by norm_trace. }
  rewrite bind_run. unfold client_generate, log.
  norm_trace. fold key req.
  destruct (generate env _ key req) as [e|audio]; norm_trace.
  - rewrite print_run. unfold log. by norm_trace.
  - rewrite bind_run. unfold save at 1. cbn [trace files].
    match goal with
    | |- context [received ?t audio] =>
        replace (received t audio) with (audio_bytes audio)
          by (symmetry; apply (received_first (trace w) [_; _]))
    end.
    destruct (save_raises env _ audio output_file) as [e|]; norm_trace.
    + rewrite print_run. unfold log. by norm_trace.
    + destruct (play_raises env _ audio) as [e|]; rewrite ?print_run;
        unfold log; by norm_trace.
Qed.

(** C6, as the code runs it.  A runner built with a non-empty credential
    runs [basic_tts] against an SDK whose [Voice] rejects a missing
    [voice_id] with [e].  The [Voice(name=...)] of [basic_tts] is rejected
    inside the [try]: the error line with [e] is printed and the call
    returns, and nothing else has happened.  No synthesis is requested,
    whatever the service would have answered, no file is written and nothing
    is played. *)
Theorem basic_tts_rejected_voice (env : Env) (w : World)
    (key text voice_name output_file : string) (e : Exc) :
  key <> "" ->
  voice_without_id env (name_only voice_name) = Some e ->
  (Main.__init__ env (Some key) ≫= fun demo =>
     Main.basic_tts env demo text voice_name output_file) w =
    ({| trace :=
          trace w ++
          [EvNewClient key;
           EvPrint [Lit "🔊 基础文本转语音: '"; PStr (str_take 50 text);
                    Lit "...'"];
           EvPrint [Lit "📢 使用语音: "; PStr voice_name];
           EvPrint [Lit "❌ 错误: "; PExc e]];
        files := files w |}, inr tt).
Proof.
  intros Hkey Hvoice.
  erewrite bind_ok by (apply init_truthy; exact Hkey).
  rewrite basic_tts_run. cbv zeta. rewrite Hvoice.
  unfold log. cbn [trace files]. by rewrite <- !app_assoc.
Qed.

Lemma basic_tts_rejected_voice_witness :
  (Main.__init__ (env_fixed ∅ [rachel] (AudioBytes riff)) (Some "test-key")
     ≫= fun demo =>
     Main.basic_tts (env_fixed ∅ [rachel] (AudioBytes riff)) demo
       "Hello" "Rachel" "out.mp3") world0 =
    ({| trace :=
          [EvNewClient "test-key";
           EvPrint [Lit "🔊 基础文本转语音: '"; PStr "Hello"; Lit "...'"];
           EvPrint [Lit "📢 使用语音: "; PStr "Rachel"];
           EvPrint [Lit "❌ 错误: "; PExc voice_id_required]];
        files := ∅ |}, inr tt).
Proof.
  apply (basic_tts_rejected_voice (env_fixed ∅ [rachel] (AudioBytes riff))
           world0 "test-key" "Hello" "Rachel" "out.mp3" voice_id_required).
  - discriminate.
  - reflexivity.
Defined.

(** ** The whole run *)


Section Openings.
Variable env : Env.
Variable self : Main.ElevenLabsDemo.



End Openings.

(** *** The listing inside the run *)

Lemma list_voices_loop_run (voices : list Voice) (w : World) :
  for_each voices (fun voice =>
    print [Lit "🗣️  "; PStr (name voice)];;
    print [Lit "   ID: "; PStr (voice_id voice)];;
    print [Lit "   类别: "; PStr (category voice)];;
    print [Lit "   描述: "; PStr (str_or (description voice) "N/A")];;
    print []) w =
  ({| trace := trace w ++ flat_map voice_block voices; files := files w |},
   inr tt).
Proof.
  revert w. induction voices as [|voice rest IH]; intros w.
  - destruct w as [tr fs]. simpl. by rewrite app_nil_r.
  - cbn [for_each flat_map].
    rewrite bind_run.
    do 4 (erewrite bind_ok by apply print_run). rewrite print_run.
    rewrite IH. unfold log, voice_block. simpl trace. simpl files.
    by rewrite <- !app_assoc.
Qed.

Lemma list_voices_returns (env : Env) (self : Main.ElevenLabsDemo)
    (w : World) (voices : list Voice) :
  let key := client_api_key (Main.client self) in
  let tr := trace w ++ [EvPrint [Lit "📋 获取可用语音列表..."]] in
  voices_get_all env tr key = inr voices ->
  Main.list_voices env self w =
    ({| trace :=
          tr ++
          [EvGetAll key;
           EvPrint [Lit (nl +:+ "找到 "); PInt (length voices);
                    Lit " 个可用语音:"];
           EvPrint [Lit (str_mul "-" 50)]] ++
          flat_map voice_block voices;
        files := files w |}, inr voices).
Proof.
  intros key tr Hlisting. subst tr. unfold Main.list_voices.
  erewrite bind_ok by apply print_run.
  erewrite bind_ok
    by (rewrite get_all_run; simpl trace; fold key; by rewrite Hlisting).
  do 2 (erewrite bind_ok by apply print_run).
  erewrite bind_ok by apply list_voices_loop_run.
  unfold log. simpl trace. simpl files. fold key.
  by rewrite <- !app_assoc.
Qed.

Lemma list_voices_raises (env : Env) (self : Main.ElevenLabsDemo)
    (w : World) (e : Exc) :
  let key := client_api_key (Main.client self) in
  let tr := trace w ++ [EvPrint [Lit "📋 获取可用语音列表..."]] in
  voices_get_all env tr key = inl e ->
  Main.list_voices env self w =
    ({| trace := tr ++ [EvGetAll key]; files := files w |}, inl e).
Proof.
  intros key tr Hlisting. subst tr. unfold Main.list_voices.
  erewrite bind_ok by apply print_run.
  erewrite bind_raise
    by (rewrite get_all_run; simpl trace; fold key; by rewrite Hlisting).
  unfold log. simpl trace. simpl files. fold key.
  by rewrite <- !app_assoc.
Qed.



(** The run against a service whose every synthesis fails, behind an SDK
    that builds a [Voice] without [voice_id]: the seven synthesis calls are
    all made, no file is written, and the run ends normally on the completion
    message. *)
Lemma main_against_failing_service :
  let run := Main.main (env_failing_unchecked with_key [rachel]) world0 in
  run.2 = inr tt /\
  generate_calls (trace run.1) =
    main_requests (env_failing_unchecked with_key [rachel]) [rachel] /\
  length (generate_calls (trace run.1)) = 7 /\
  files run.1 = ∅ /\
  last (trace run.1) = Some (EvPrint [Lit "📁 检查当前目录中生成的音频文件"]).
Proof. vm_compute. repeat split; reflexivity. Qed.

(** ** The comparison of voices *)

Lemma demo_voice_run (env : Env) (self : Main.ElevenLabsDemo) (w : World)
    (text : string) (i : nat) (voice_name : string) :
  let key := client_api_key (Main.client self) in
  let req :=
    {| g_text := text;
       g_voice := VoiceObj (name_only voice_name);
       g_model := "eleven_monolingual_v1";
       g_stream := None |} in
  let tr := trace w ++ [voice_header i voice_name] in
  let output_file := Main.demo_voice_file env i voice_name in
  let failed e :=
    EvPrint [Lit "   ❌ 语音 "; PStr voice_name; Lit " 失败: "; PExc e] in
  Main.demo_voice env self text (i, voice_name) w =
    match voice_without_id env (name_only voice_name) with
    | Some e => ({| trace := tr ++ [failed e]; files := files w |}, inr tt)
    | None =>
        match generate env tr key req with
        | inl e =>
            ({| trace := tr ++ [EvGenerate key req; failed e];
                files := files w |}, inr tt)
        | inr audio =>
            match save_raises env (tr ++ [EvGenerate key req]) audio
                    output_file with
            | Some e =>
                ({| trace := tr ++ [EvGenerate key req;
                                    EvSave audio output_file; failed e];
                    files := files w |}, inr tt)
            | None =>
                ({| trace := tr ++ [EvGenerate key req;
                                    EvSave audio output_file;
                                    EvPrint [Lit "   💾 保存到: ";
                                             PStr output_file]];
                    files :=
                      <[output_file := audio_bytes audio]> (files w) |},
                 inr tt)
            end
        end
    end.
Proof.
  intros key req tr output_file failed. subst tr failed.
  unfold Main.demo_voice, voice_header.
  erewrite bind_ok by apply print_run.
  rewrite try_except_run, bind_run, new_voice_run.
  cbn [init_voice_id]. fold (name_only voice_name).
  destruct (voice_without_id env (name_only voice_name)) as [e|].
  { rewrite print_run. unfold log. cbn [trace files].
    by rewrite <- ?app_assoc. }
  rewrite bind_run. unfold client_generate, log.
  cbn [trace files]. rewrite <- ?app_assoc. cbn [app]. fold key req.
  destruct (generate env _ key req) as [e|audio].
  - rewrite print_run. unfold log. cbn [trace files].
    by rewrite <- ?app_assoc.
  - rewrite bind_run. fold output_file. unfold save at 1.
    cbn [trace files].
    match goal with
    | |- context [received ?t audio] =>
        replace (received t audio) with (audio_bytes audio)
          by (symmetry; apply (received_first (trace w) [_]))
    end.
    destruct (save_raises env _ audio output_file) as [e|];
      rewrite print_run; unfold log; cbn [trace files];
      by rewrite <- ?app_assoc.
Qed.

(** One turn of the loop announces its voice and saves at most its own
    file. *)
Lemma demo_voice_saves (env : Env) (self : Main.ElevenLabsDemo) (w : World)
    (text : string) (iv : nat * string) :
  exists w' saved,
    Main.demo_voice env self text iv w = (w', inr tt) /\
    save_calls (trace w') = save_calls (trace w) ++ saved /\
    map snd saved `sublist_of` [Main.demo_voice_file env iv.1 iv.2] /\
    play_calls (trace w') = play_calls (trace w) /\
    (forall p, p <> Main.demo_voice_file env iv.1 iv.2 ->
               files w' !! p = files w !! p).
Proof.
  destruct iv as [i voice_name]. rewrite demo_voice_run. cbv zeta.
  unfold save_calls, play_calls, voice_header.
  destruct (voice_without_id env _) as [e|];
    [| destruct (generate env _ _ _) as [e|audio];
       [| destruct (save_raises env _ audio _) as [e|]]].
  - eexists _, []. split; [reflexivity |]. simpl.
    rewrite !flat_map_app. simpl. rewrite !app_nil_r.
    repeat split. apply sublist_nil_l.
  - eexists _, []. split; [reflexivity |]. simpl.
    rewrite !flat_map_app. simpl. rewrite !app_nil_r.
    repeat split. apply sublist_nil_l.
  - eexists _, [(audio, _)]. split; [reflexivity |]. simpl.
    rewrite !flat_map_app. simpl. rewrite !app_nil_r.
    repeat split; reflexivity.
  - eexists _, [(audio, _)]. split; [reflexivity |]. simpl.
    rewrite !flat_map_app. simpl. rewrite !app_nil_r.
    repeat split; try reflexivity.
    intros p Hp. by rewrite lookup_insert_ne.
Qed.

Lemma demo_voices_loop_saves (env : Env) (self : Main.ElevenLabsDemo)
    (text : string) (ivs : list (nat * string)) (w : World) :
  exists w' saved,
    for_each ivs (Main.demo_voice env self text) w = (w', inr tt) /\
    save_calls (trace w') = save_calls (trace w) ++ saved /\
    map snd saved `sublist_of`
      map (fun iv => Main.demo_voice_file env iv.1 iv.2) ivs /\
    play_calls (trace w') = play_calls (trace w) /\
    (forall p, p ∉ map (fun iv => Main.demo_voice_file env iv.1 iv.2) ivs ->
               files w' !! p = files w !! p).
Proof.
  revert w. induction ivs as [|iv ivs IH]; intros w; simpl.
  - exists w, []. rewrite app_nil_r. repeat split; reflexivity.
  - destruct (demo_voice_saves env self w text iv)
      as (w1 & s1 & Hrun & Hsaves1 & Hsub1 & Hplay1 & Hfiles1).
    erewrite bind_ok by exact Hrun.
    destruct (IH w1) as (w2 & s2 & Hloop & Hsaves2 & Hsub2 & Hplay2 & Hfiles2).
    exists w2, (s1 ++ s2). split; [exact Hloop |]. repeat split.
    + by rewrite Hsaves2, Hsaves1, app_assoc.
    + rewrite map_app.
      change (Main.demo_voice_file env iv.1 iv.2 ::
              map (fun iv0 => Main.demo_voice_file env iv0.1 iv0.2) ivs)
        with ([Main.demo_voice_file env iv.1 iv.2] ++
              map (fun iv0 => Main.demo_voice_file env iv0.1 iv0.2) ivs).
      by apply sublist_app.
    + by rewrite Hplay2.
    + intros p Hp. rewrite not_elem_of_cons in Hp. destruct Hp as [Hne Hp].
      rewrite Hfiles2 by exact Hp. by apply Hfiles1.
Qed.


Lemma demo_voice_files_enumerated (env : Env) :
  map (fun iv : nat * string => Main.demo_voice_file env iv.1 iv.2)
    (enumerate Main.demo_voices 1) = demo_voice_files.
Proof. vm_compute. reflexivity. Qed.




(** * Further properties of the scripts *)

(** ** The runner and its credential *)

(** X1. Whatever the arguments and the environment, a runner that
    [__init__] returns holds a non-empty key, its client was built with that
    very key, and the key is the parameter or, when the parameter is falsy,
    the value of the environment variable.  One client was built, no file
    was touched and nothing went to the network. *)
Theorem init_runner_invariant (env : Env) (api_key : option string)
    (w w' : World) (demo : Main.ElevenLabsDemo) :
  Main.__init__ env api_key w = (w', inr demo) ->
  Main.api_key demo <> "" /\
  client_api_key (Main.client demo) = Main.api_key demo /\
  (api_key = Some (Main.api_key demo) \/
   (truthy api_key = false /\
    environ env !! "ELEVENLABS_API_KEY" = Some (Main.api_key demo))) /\
  new_clients (trace w') = new_clients (trace w) ++ [Main.api_key demo] /\
  network_calls (trace w') = network_calls (trace w) /\
  files w' = files w.
Proof.
  destruct (truthy api_key) eqn:Htruthy.
  - destruct api_key as [[|c k]|]; try discriminate.
    rewrite init_truthy by discriminate. intros [= <- <-]. simpl.
    unfold new_clients, network_calls. rewrite !flat_map_snoc. simpl.
    rewrite app_nil_r. repeat split; auto; discriminate.
  - rewrite init_falsy by assumption.
    destruct (environ env !! "ELEVENLABS_API_KEY") as [[|c k]|];
      try discriminate.
    intros [= <- <-]. simpl.
    unfold new_clients, network_calls. rewrite !flat_map_snoc. simpl.
    rewrite !app_nil_r. repeat split; auto; discriminate.
Qed.

Lemma init_runner_invariant_witness :
  Main.api_key test_demo <> "" /\
  client_api_key (Main.client test_demo) = Main.api_key test_demo.
Proof.
  destruct (init_runner_invariant (env_fixed ∅ [rachel] (AudioBytes riff))
              (Some "test-key") world0
              (log (EvNewClient "test-key") world0) test_demo eq_refl)
    as (Hkey & Hclient & _).
  split; assumption.
Defined.

(** ** The run of [main] *)

Lemma safe_main_handler (e : Exc) :
  safe (match exc_class e with
        | ValueError =>
            print [Lit "❌ 配置错误: "; PExc e];;
            print [Lit (nl +:+ "🔧 设置说明:")];;
            print [Lit "1. 获取 ElevenLabs API 密钥: https://elevenlabs.io/"];;
            print [Lit "2. 设置环境变量: export ELEVENLABS_API_KEY='your_api_key'"];;
            print [Lit "3. 或者在代码中直接传入 api_key 参数"]
        | OtherException => print [Lit "❌ 意外错误: "; PExc e]
        end).
Proof. destruct (exc_class e); solve_safe. Qed.

(** X2. [main] never raises: whatever the environment holds and whatever
    the service and the helpers do, it returns normally. *)
Theorem main_never_raises (env : Env) (w : World) :
  exists w', Main.main env w = (w', inr tt).
Proof.
  assert (Hsafe : safe (Main.main env)).
  { unfold Main.main.
    apply safe_bind; [apply safe_print | intros _].
    apply safe_bind; [apply safe_print | intros _].
    apply safe_try_except. apply safe_main_handler. }
  destruct (Hsafe w) as (w' & [] & Hrun). by exists w'.
Qed.

Lemma main_handler_run (e : Exc) (w : World) :
  (match exc_class e with
   | ValueError =>
       print [Lit "❌ 配置错误: "; PExc e];;
       print [Lit (nl +:+ "🔧 设置说明:")];;
       print [Lit "1. 获取 ElevenLabs API 密钥: https://elevenlabs.io/"];;
       print [Lit "2. 设置环境变量: export ELEVENLABS_API_KEY='your_api_key'"];;
       print [Lit "3. 或者在代码中直接传入 api_key 参数"]
   | OtherException => print [Lit "❌ 意外错误: "; PExc e]
   end) w =
  ({| trace :=
        trace w ++
        match exc_class e with
        | ValueError => configuration_help e
        | OtherException => [EvPrint [Lit "❌ 意外错误: "; PExc e]]
        end;
      files := files w |}, inr tt).
Proof.
  destruct (exc_class e).
  - do 4 (erewrite bind_ok by apply print_run). rewrite print_run.
    unfold log, configuration_help. simpl trace. simpl files.
    by rewrite <- !app_assoc.
  - by rewrite print_run.
Qed.

(** X3. With [ELEVENLABS_API_KEY] unset or empty, [main] prints its banner,
    reads the variable, prints the configuration error with the message of
    the [ValueError] and the three set-up hints, and returns.  Nothing else
    happens: no client, no call to the service, no file. *)
Theorem main_missing_credential (env : Env) (w : World) :
  truthy (environ env !! "ELEVENLABS_API_KEY") = false ->
  Main.main env w =
    ({| trace :=
          trace w ++
          [EvPrint [Lit "🎬 ElevenLabs API Python Demo"];
           EvPrint [Lit (str_mul "=" 40)];
           EvGetenv "ELEVENLABS_API_KEY"] ++
          configuration_help Main.api_key_required;
        files := files w |}, inr tt).
Proof.
  intros Henv. unfold Main.main.
  do 2 (erewrite bind_ok by apply print_run).
  rewrite try_except_run.
  erewrite bind_raise
    by (rewrite init_falsy by reflexivity;
        destruct (truthy_false_inv _ Henv) as [-> | ->]; reflexivity).
  rewrite main_handler_run. unfold log. simpl trace. simpl files.
  simpl exc_class. cbv iota. by rewrite <- !app_assoc.
Qed.

Lemma main_missing_credential_witness :
  Main.main (env_fixed ∅ [rachel] (AudioBytes riff)) world0 =
    ({| trace :=
          [EvPrint [Lit "🎬 ElevenLabs API Python Demo"];
           EvPrint [Lit (str_mul "=" 40)];
           EvGetenv "ELEVENLABS_API_KEY"] ++
          configuration_help Main.api_key_required;
        files := ∅ |}, inr tt).
Proof.
  apply (main_missing_credential (env_fixed ∅ [rachel] (AudioBytes riff))
           world0).
  reflexivity.
Defined.

(** ** Listing the voices *)

(** X4. [list_voices] asks the service once.  When the listing comes back it
    is returned as received; the console shows the header, the number of
    voices, a rule and then, in listing order, one block of five lines per
    voice, with N/A for a missing or empty description.  When the call
    raises, the exception leaves [list_voices] with only the header printed.
    No file is touched either way. *)
Theorem list_voices_reports_listing (env : Env) (self : Main.ElevenLabsDemo)
    (w : World) :
  let key := client_api_key (Main.client self) in
  let tr := trace w ++ [EvPrint [Lit "📋 获取可用语音列表..."]] in
  (forall voices,
     voices_get_all env tr key = inr voices ->
     Main.list_voices env self w =
       ({| trace :=
             tr ++
             [EvGetAll key;
              EvPrint [Lit (nl +:+ "找到 "); PInt (length voices);
                       Lit " 个可用语音:"];
              EvPrint [Lit (str_mul "-" 50)]] ++
             flat_map voice_block voices;
           files := files w |}, inr voices)) /\
  (forall e,
     voices_get_all env tr key = inl e ->
     Main.list_voices env self w =
       ({| trace := tr ++ [EvGetAll key]; files := files w |}, inl e)).
Proof.
  intros key tr. split.
  - intros voices Hlisting. by apply list_voices_returns.
  - intros e Hlisting. by apply list_voices_raises.
Qed.

Lemma list_voices_reports_listing_witness :
  Main.list_voices (env_fixed ∅ [rachel; drew] (AudioBytes riff)) test_demo
    world0 =
    ({| trace :=
          [EvPrint [Lit "📋 获取可用语音列表..."];
           EvGetAll "test-key";
           EvPrint [Lit (nl +:+ "找到 "); PInt 2; Lit " 个可用语音:"];
           EvPrint [Lit (str_mul "-" 50)]] ++
          voice_block rachel ++ voice_block drew;
        files := ∅ |}, inr [rachel; drew]) /\
  Main.list_voices (env_no_listing ∅ quota_exceeded) test_demo world0 =
    ({| trace := [EvPrint [Lit "📋 获取可用语音列表..."]; EvGetAll "test-key"];
        files := ∅ |}, inl quota_exceeded).
Proof.
  split.
  - pose proof (list_voices_reports_listing
                  (env_fixed ∅ [rachel; drew] (AudioBytes riff)) test_demo
                  world0) as H.
    cbv zeta in H. destruct H as [Hok _].
    apply (Hok [rachel; drew]). reflexivity.
  - pose proof (list_voices_reports_listing
                  (env_no_listing ∅ quota_exceeded) test_demo world0) as H.
    cbv zeta in H. destruct H as [_ Hraise].
    apply (Hraise quota_exceeded). reflexivity.
Defined.

(** X5. When the credential is present and the listing call raises [e],
    [main] stops there: the listing is the only call to the service, no
    synthesis is attempted, no file is written and the completion message is
    not printed.  A [ValueError] from the listing is reported as a
    configuration error with the set-up hints, any other exception as an
    unexpected error. *)
Theorem main_listing_failure (env : Env) (w : World) (k : string) (e : Exc) :
  let tr :=
    trace w ++
    [EvPrint [Lit "🎬 ElevenLabs API Python Demo"];
     EvPrint [Lit (str_mul "=" 40)];
     EvGetenv "ELEVENLABS_API_KEY";
     EvNewClient k;
     EvPrint [Lit (nl +:+ "1️⃣  演示：列出可用语音")];
     EvPrint [Lit "📋 获取可用语音列表..."]] in
  environ env !! "ELEVENLABS_API_KEY" = Some k ->
  k <> "" ->
  voices_get_all env tr k = inl e ->
  Main.main env w =
    ({| trace :=
          tr ++ [EvGetAll k] ++
          match exc_class e with
          | ValueError => configuration_help e
          | OtherException => [EvPrint [Lit "❌ 意外错误: "; PExc e]]
          end;
        files := files w |}, inr tt).
Proof.
  intros tr Henv Hk Hlisting. unfold Main.main.
  do 2 (erewrite bind_ok by apply print_run).
  rewrite try_except_run.
  erewrite bind_ok
    by (rewrite init_falsy by reflexivity; rewrite Henv;
        destruct k; [done | reflexivity]).
  erewrite bind_ok by apply print_run.
  set (demo := {| Main.api_key := k |}).
  erewrite bind_raise.
  2: { apply (list_voices_raises env demo). simpl trace.
       rewrite <- !app_assoc. exact Hlisting. }
  rewrite main_handler_run. unfold log. simpl trace. simpl files.
  subst tr. by rewrite <- !app_assoc.
Qed.

Lemma main_listing_failure_witness :
  Main.main (env_no_listing with_key invalid_key) world0 =
    ({| trace :=
          [EvPrint [Lit "🎬 ElevenLabs API Python Demo"];
           EvPrint [Lit (str_mul "=" 40)];
           EvGetenv "ELEVENLABS_API_KEY";
           EvNewClient "test-key";
           EvPrint [Lit (nl +:+ "1️⃣  演示：列出可用语音")];
           EvPrint [Lit "📋 获取可用语音列表..."];
           EvGetAll "test-key"] ++ configuration_help invalid_key;
        files := ∅ |}, inr tt).
Proof.
  apply (main_listing_failure (env_no_listing with_key invalid_key) world0
           "test-key" invalid_key).
  - reflexivity.
  - discriminate.
  - reflexivity.
Defined.

(** ** Which files a computation can change *)

Section WritesWithin.
Variable env : Env.
Variable paths : list string.

Lemma within_ret {A} (a : A) : writes_within paths (mret a).
Proof. by intros w p _. Qed.

Lemma within_raise {A} (e : Exc) : writes_within paths (@raise A e).
Proof. by intros w p _. Qed.

Lemma within_emit (e : Event) : writes_within paths (emit e).
Proof. by intros w p _. Qed.

Lemma within_print (l : Line) : writes_within paths (print l).
Proof. by intros w p _. Qed.

Lemma within_get_all (c : Client) :
  writes_within paths (client_voices_get_all env c).
Proof. by intros w p _. Qed.

Lemma within_generate (c : Client) (req : GenerateRequest) :
  writes_within paths (client_generate env c req).
Proof. by intros w p _. Qed.

Lemma within_new_voice (v : VoiceInit) :
  writes_within paths (new_voice env v).
Proof. intros w p _. by rewrite new_voice_run. Qed.

Lemma within_play (a : Audio) : writes_within paths (play env a).
Proof. by intros w p _. Qed.

Lemma within_stream (a : Audio) : writes_within paths (stream env a).
Proof. by intros w p _. Qed.

Lemma within_save (a : Audio) (filename : string) :
  filename ∈ paths -> writes_within paths (save env a filename).
Proof.
  intros Hin w p Hp. unfold save.
  destruct (save_raises env (trace w) a filename); simpl; [done |].
  apply lookup_insert_ne. intros ->. contradiction.
Qed.

Lemma within_bind {A B} (m : M A) (k : A -> M B) :
  writes_within paths m -> (forall a, writes_within paths (k a)) ->
  writes_within paths (m ≫= k).
Proof.
  intros Hm Hk w p Hp. rewrite bind_run. specialize (Hm w p Hp).
  destruct (m w) as [w1 [e|a]]; simpl in *; [done |].
  by rewrite Hk.
Qed.

Lemma within_try_except {A} (body : M A) (handler : Exc -> M A) :
  writes_within paths body -> (forall e, writes_within paths (handler e)) ->
  writes_within paths (try_except body handler).
Proof.
  intros Hb Hh w p Hp. rewrite try_except_run. specialize (Hb w p Hp).
  destruct (body w) as [w1 [e|a]]; simpl in *; [| done].
  by rewrite Hh.
Qed.

Lemma within_for_each {A} (xs : list A) (body : A -> M unit) :
  (forall x, writes_within paths (body x)) ->
  writes_within paths (for_each xs body).
Proof.
  intros Hb. induction xs as [|x xs IH]; simpl.
  - apply within_ret.
  - apply within_bind; auto.
Qed.
End WritesWithin.

Lemma within_weaken {A} (paths paths' : list string) (m : M A) :
  paths ⊆ paths' -> writes_within paths m -> writes_within paths' m.
Proof. intros Hsub Hm w p Hp. apply Hm. intros Hin. apply Hp, Hsub, Hin. Qed.

Ltac solve_within :=
  repeat lazymatch goal with
    | |- writes_within _ (try_except _ _) =>
        apply within_try_except; [| intros ?]
    | |- writes_within _ (_ ≫= _) => apply within_bind; [| intros ?]
    | |- writes_within _ (for_each _ _) => apply within_for_each; intros ?
    | |- writes_within _ (print _) => apply within_print
    | |- writes_within _ (client_generate _ _ _) => apply within_generate
    | |- writes_within _ (new_voice _ _) => apply within_new_voice
    | |- writes_within _ (client_voices_get_all _ _) => apply within_get_all
    | |- writes_within _ (play _ _) => apply within_play
    | |- writes_within _ (stream _ _) => apply within_stream
    | |- writes_within _ (emit _) => apply within_emit
    | |- writes_within _ (mret _) => apply within_ret
    | |- writes_within _ (ret _) => apply within_ret
    | |- writes_within _ (raise _) => apply within_raise
    | |- writes_within _ (save _ _ _) => apply within_save; repeat constructor
    end.

Section ScenarioFiles.
Variable env : Env.
Variable self : Main.ElevenLabsDemo.

Lemma within_init (paths : list string) (api_key : option string) :
  writes_within paths (Main.__init__ env api_key).
Proof.
  unfold Main.__init__, os_getenv, ElevenLabs.
  apply within_bind; [destruct (truthy api_key); solve_within | intros key].
  destruct key as [[|c k]|]; solve_within.
Qed.

Lemma within_list_voices (paths : list string) :
  writes_within paths (Main.list_voices env self).
Proof. unfold Main.list_voices. solve_within. Qed.

Lemma within_basic_tts (text voice_name output_file : string) :
  writes_within [output_file]
    (Main.basic_tts env self text voice_name output_file).
Proof. unfold Main.basic_tts. solve_within. Qed.

Lemma within_advanced_tts (text vid : string) (s sb st : float) (usb : bool)
    (output_file : string) :
  writes_within [output_file]
    (Main.advanced_tts_with_settings env self text vid s sb st usb
       output_file).
Proof. unfold Main.advanced_tts_with_settings. solve_within. Qed.

Lemma within_streaming_tts (text voice_name : string) :
  writes_within [] (Main.streaming_tts env self text voice_name).
Proof. unfold Main.streaming_tts. solve_within. Qed.

Lemma within_demo_multiple_voices (text : string) :
  writes_within demo_voice_files (Main.demo_multiple_voices env self text).
Proof.
  intros w p Hp. unfold Main.demo_multiple_voices.
  erewrite bind_ok by apply print_run.
  destruct (demo_voices_loop_saves env self text
              (enumerate Main.demo_voices 1) (log (EvPrint
                 [Lit "🎭 多语音演示: '"; PStr text; Lit "'"]) w))
    as (w' & saved & Hloop & _ & _ & _ & Hfiles).
  rewrite demo_voice_files_enumerated in Hfiles.
  rewrite Hloop. simpl. by rewrite Hfiles.
Qed.
End ScenarioFiles.

(** X6. Whatever happens, [main] changes no file other than
    [demo_basic.mp3], [demo_advanced.mp3] and the four files of the
    comparison of voices. *)
Theorem main_writes_only_its_files (env : Env) (w : World) (p : string) :
  p ∉ main_files -> files (Main.main env w).1 !! p = files w !! p.
Proof.
  revert w p. change (writes_within main_files (Main.main env)).
  unfold Main.main.
  do 2 (apply within_bind; [apply within_print | intros _]).
  apply within_try_except.
  - apply within_bind; [apply within_init | intros demo].
    apply within_bind; [apply within_print | intros _].
    apply within_bind; [apply within_list_voices | intros voices].
    apply within_bind; [apply within_print | intros _].
    apply within_bind.
    { eapply within_weaken; [| apply within_basic_tts].
      intros x ->%list_elem_of_singleton. repeat constructor. }
    intros _. apply within_bind.
    { destruct voices as [|first_voice rest]; [apply within_ret |].
      apply within_bind; [apply within_print | intros _].
      eapply within_weaken; [| apply within_advanced_tts].
      intros x ->%list_elem_of_singleton. repeat constructor. }
    intros _. apply within_bind; [apply within_print | intros _].
    apply within_bind.
    { eapply within_weaken; [| apply within_streaming_tts].
      apply list_subseteq_nil. }
    intros _. apply within_bind; [apply within_print | intros _].
    apply within_bind.
    { eapply within_weaken; [| apply within_demo_multiple_voices].
      intros x Hx. by do 2 apply list_elem_of_further. }
    intros _. solve_within.
  - intros e. destruct (exc_class e); solve_within.
Qed.

Lemma main_writes_only_its_files_witness :
  files (Main.main (env_fixed with_key [rachel] (AudioBytes riff)) world0).1
    !! "output.mp3" = files world0 !! "output.mp3".
Proof.
  apply (main_writes_only_its_files
           (env_fixed with_key [rachel] (AudioBytes riff)) world0
           "output.mp3").
  unfold main_files, demo_voice_files. simpl.
  repeat (apply not_elem_of_cons; split; [discriminate |]).
  apply not_elem_of_nil.
Defined.

(** ** What [main] sends to the service *)

Section ScenarioNetwork.
Variable env : Env.
Variable self : Main.ElevenLabsDemo.

Lemma basic_tts_network (text voice_name output_file : string) :
  emits network_of (Main.basic_tts env self text voice_name output_file)
    (match voice_without_id env (name_only voice_name) with
     | Some _ => []
     | None =>
         [EvGenerate (client_api_key (Main.client self))
            (named_voice_request text voice_name "eleven_monolingual_v1"
               None)]
     end).
Proof.
  unfold Main.basic_tts.
  do 2 (apply (emits_bind_safe _ _ _ [] _);
        [apply safe_print | apply emits_print | intros _]).
  apply emits_try_except; [| intros e; apply emits_print].
  apply (emits_named_voice network_of env voice_name). solve_quiet.
Qed.

Lemma advanced_tts_network (text vid : string) (s sb st : float)
    (usb : bool) (output_file : string) :
  emits network_of
    (Main.advanced_tts_with_settings env self text vid s sb st usb
       output_file)
    [EvGenerate (client_api_key (Main.client self))
       {| g_text := text;
          g_voice :=
            VoiceObj {| init_voice_id := Some vid;
                        init_name := None;
                        init_settings :=
                          Some {| stability := s;
                                  similarity_boost := sb;
                                  style := st;
                                  use_speaker_boost := usb |} |};
          g_model := "eleven_multilingual_v2";
          g_stream := None |}].
Proof.
  unfold Main.advanced_tts_with_settings.
  do 5 (apply (emits_bind_safe _ _ _ [] _);
        [apply safe_print | apply emits_print | intros _]).
  apply emits_try_except; [| intros e; apply emits_print].
  apply (emits_voice_with_id network_of env _ vid); [reflexivity |].
  solve_quiet.
Qed.

Lemma streaming_tts_network (text voice_name : string) :
  emits network_of (Main.streaming_tts env self text voice_name)
    (match voice_without_id env (name_only voice_name) with
     | Some _ => []
     | None =>
         [EvGenerate (client_api_key (Main.client self))
            (named_voice_request text voice_name "eleven_turbo_v2"
               (Some true))]
     end).
Proof.
  unfold Main.streaming_tts.
  do 2 (apply (emits_bind_safe _ _ _ [] _);
        [apply safe_print | apply emits_print | intros _]).
  apply emits_try_except; [| intros e; apply emits_print].
  apply (emits_named_voice network_of env voice_name). solve_quiet.
Qed.

Lemma demo_voice_network (text : string) (iv : nat * string) :
  emits network_of (Main.demo_voice env self text iv)
    (match voice_without_id env (name_only iv.2) with
     | Some _ => []
     | None =>
         [EvGenerate (client_api_key (Main.client self))
            (named_voice_request text iv.2 "eleven_monolingual_v1" None)]
     end).
Proof.
  destruct iv as [i voice_name]. unfold Main.demo_voice.
  apply (emits_bind_safe _ _ _ [] _); [apply safe_print | apply emits_print |].
  intros _. apply emits_try_except; [| intros e; apply emits_print].
  apply (emits_named_voice network_of env voice_name). solve_quiet.
Qed.

Lemma demo_multiple_voices_network (text : string) :
  emits network_of (Main.demo_multiple_voices env self text)
    (flat_map
       (fun voice_name =>
          match voice_without_id env (name_only voice_name) with
          | Some _ => []
          | None =>
              [EvGenerate (client_api_key (Main.client self))
                 (named_voice_request text voice_name
                    "eleven_monolingual_v1" None)]
          end)
       ["Rachel"; "Drew"; "Clyde"; "Paul"]).
Proof.
  unfold Main.demo_multiple_voices.
  apply (emits_bind_safe _ _ _ [] _); [apply safe_print | apply emits_print |].
  intros _.
  exact (emits_for_each network_of _ _ _ (safe_demo_voice env self text)
           (demo_voice_network text)).
Qed.
End ScenarioNetwork.

(** X7. With the credential [k] in the environment and the listing
    returned, [main] sends to the service, with [k], once each and in this
    order: the listing call, then the synthesis calls of the scenarios.  The
    tuned synthesis for the first listed voice, with stability 0.7,
    similarity boost 0.8, style 0.2 and speaker boost on, is always among
    them unless the listing is empty.  The basic synthesis, the streamed one
    and the four of the comparison are sent only when the SDK builds their
    [Voice(name=...)]: behind an SDK that rejects a [Voice] without
    [voice_id], the listing and the tuned synthesis are the only calls.  A
    call that raises is not repeated and does not stop the later ones. *)
Theorem main_network_calls (env : Env) (w : World) (k : string)
    (voices : list Voice) :
  environ env !! "ELEVENLABS_API_KEY" = Some k ->
  k <> "" ->
  voices_get_all env
    (trace w ++
     [EvPrint [Lit "🎬 ElevenLabs API Python Demo"];
      EvPrint [Lit (str_mul "=" 40)];
      EvGetenv "ELEVENLABS_API_KEY";
      EvNewClient k;
      EvPrint [Lit (nl +:+ "1️⃣  演示：列出可用语音")];
      EvPrint [Lit "📋 获取可用语音列表..."]]) k = inr voices ->
  network_calls (trace (Main.main env w).1) =
    network_calls (trace w) ++
    EvGetAll k :: map (EvGenerate k) (main_requests env voices) /\
  ((forall voice_name, is_Some (voice_without_id env (name_only voice_name))) ->
   main_requests env voices =
     match voices with
     | [] => []
     | first_voice :: _ =>
         [{| g_text := "This is an advanced example with custom voice settings. Notice the difference in tone and style.";
             g_voice :=
               VoiceObj {| init_voice_id := Some (voice_id first_voice);
                           init_name := None;
                           init_settings :=
                             Some {| stability := f_0_7;
                                     similarity_boost := f_0_8;
                                     style := f_0_2;
                                     use_speaker_boost := true |} |};
             g_model := "eleven_multilingual_v2";
             g_stream := None |}]
     end).
Proof.
  intros Henv Hk Hlisting. split.
  2: { intros Hrejects. unfold main_requests, when_built. cbn [flat_map].
       destruct (Hrejects "Rachel") as [e1 ->].
       destruct (Hrejects "Drew") as [e2 ->].
       destruct (Hrejects "Clyde") as [e3 ->].
       destruct (Hrejects "Paul") as [e4 ->].
       cbn [app]. by rewrite app_nil_r. }
  unfold Main.main.
  do 2 (erewrite bind_ok by apply print_run).
  rewrite try_except_run.
  erewrite bind_ok
    by (rewrite init_falsy by reflexivity; rewrite Henv;
        destruct k; [done | reflexivity]).
  erewrite bind_ok by apply print_run.
  set (demo := {| Main.api_key := k |}).
  match goal with
  | |- context [Main.list_voices env demo ≫= ?k2] => set (rest := k2)
  end.
  assert (Hrest : safe (rest voices) /\
                  exists sent,
                    emits network_of (rest voices) sent /\
                    sent = map (EvGenerate k) (main_requests env voices)).
  { subst rest. cbv beta. split.
    - apply safe_bind; [apply safe_print | intros _].
      apply safe_bind; [apply safe_basic_tts | intros _].
      apply safe_bind.
      { destruct voices; [apply safe_ret |].
        apply safe_bind; [apply safe_print | intros _].
        apply safe_advanced_tts_with_settings. }
      intros _. apply safe_bind; [apply safe_print | intros _].
      apply safe_bind; [apply safe_streaming_tts | intros _].
      apply safe_bind; [apply safe_print | intros _].
      apply safe_bind; [apply safe_demo_multiple_voices | intros _].
      solve_safe.
    - assert (Htuned : exists tuned,
                emits network_of
                  (match voices with
                   | [] => mret tt
                   | first_voice :: _ =>
                       print [Lit (nl +:+ "3️⃣  演示：高级设置文本转语音")];;
                       Main.advanced_tts_with_settings env demo
                         "This is an advanced example with custom voice settings. Notice the difference in tone and style."
                         (voice_id first_voice) f_0_7 f_0_8 f_0_2 true
                         "demo_advanced.mp3"
                   end) tuned /\
                tuned =
                  match voices with
                  | [] => []
                  | first_voice :: _ =>
                      [EvGenerate k
                         {| g_text := "This is an advanced example with custom voice settings. Notice the difference in tone and style.";
                            g_voice :=
                              VoiceObj
                                {| init_voice_id := Some (voice_id first_voice);
                                   init_name := None;
                                   init_settings :=
                                     Some {| stability := f_0_7;
                                             similarity_boost := f_0_8;
                                             style := f_0_2;
                                             use_speaker_boost := true |} |};
                            g_model := "eleven_multilingual_v2";
                            g_stream := None |}]
                  end).
      { destruct voices as [|first_voice others].
        - exists []. split; [apply emits_ret | reflexivity].
        - eexists. split; [| reflexivity].
          apply (emits_bind_safe _ _ _ [] _);
            [apply safe_print | apply emits_print | intros _].
          apply (advanced_tts_network env demo). }
      destruct Htuned as (tuned & Htuned & Htuned_eq).
      eexists. split.
      + eapply emits_bind_safe;
          [apply safe_print | apply emits_print | intros _].
        eapply emits_bind_safe;
          [apply safe_basic_tts | apply (basic_tts_network env demo)
          | intros _].
        eapply emits_bind_safe; [| exact Htuned | intros _].
        { destruct voices; [apply safe_ret |].
          apply safe_bind; [apply safe_print | intros _].
          apply safe_advanced_tts_with_settings. }
        eapply emits_bind_safe;
          [apply safe_print | apply emits_print | intros _].
        eapply emits_bind_safe;
          [apply safe_streaming_tts
          | apply (streaming_tts_network env demo) | intros _].
        eapply emits_bind_safe;
          [apply safe_print | apply emits_print | intros _].
        eapply emits_bind_safe;
          [apply safe_demo_multiple_voices
          | apply (demo_multiple_voices_network env demo) | intros _].
        eapply emits_bind_safe;
          [apply safe_print | apply emits_print | intros _].
        apply emits_print.
      + subst tuned. unfold main_requests, when_built, named_voice_request.
        cbn [flat_map network_of is_network app].
        destruct (voice_without_id env (name_only "Rachel"));
          destruct (voice_without_id env (name_only "Drew"));
          destruct (voice_without_id env (name_only "Clyde"));
          destruct (voice_without_id env (name_only "Paul"));
          destruct voices; reflexivity. }
  destruct Hrest as (Hsafe & sent & Hemits & ->).
  erewrite bind_ok.
  2: { apply (list_voices_returns env demo). simpl trace.
       rewrite <- !app_assoc. exact Hlisting. }
  match goal with
  | |- context [rest voices ?w0] =>
      destruct (Hsafe w0) as (w' & [] & Hrun);
      pose proof (Hemits w0) as Hcalls; rewrite Hrun in *
  end.
  cbn [fst trace] in Hcalls |- *. unfold network_calls. rewrite Hcalls.
  rewrite !flat_map_app. cbn [flat_map network_of is_network app].
  assert (Hblocks : flat_map network_of (flat_map voice_block voices) = []).
  { clear. induction voices as [|v vs IH]; [done |]. simpl. exact IH. }
  rewrite Hblocks. unfold log. cbn [trace app].
  rewrite !flat_map_app. cbn [flat_map network_of is_network app].
  by rewrite !app_nil_r, <- !app_assoc.
Qed.

Lemma main_network_calls_witness :
  network_calls
    (trace (Main.main (env_fixed with_key [rachel] (AudioBytes riff))
              world0).1) =
    [EvGetAll "test-key";
     EvGenerate "test-key"
       {| g_text := "This is an advanced example with custom voice settings. Notice the difference in tone and style.";
          g_voice :=
            VoiceObj {| init_voice_id := Some (voice_id rachel);
                        init_name := None;
                        init_settings :=
                          Some {| stability := f_0_7;
                                  similarity_boost := f_0_8;
                                  style := f_0_2;
                                  use_speaker_boost := true |} |};
          g_model := "eleven_multilingual_v2";
          g_stream := None |}].
Proof.
  destruct (main_network_calls
              (env_fixed with_key [rachel] (AudioBytes riff)) world0
              "test-key" [rachel]) as [Hcalls Hrejected].
  - reflexivity.
  - discriminate.
  - reflexivity.
  - rewrite Hcalls, Hrejected; [reflexivity |].
    intros voice_name. by exists voice_id_required.
Defined.
(** ** More on looking a voice up *)

Lemma lowered_names_inj (env : Env) (voices : list Voice) (u v : Voice) :
  NoDup (map (fun x => lower env (name x)) voices) ->
  u ∈ voices -> v ∈ voices -> lower env (name u) = lower env (name v) -> u = v.
Proof.
  induction voices as [|x rest IH]; intros Hnd Hu Hv Heq.
  - by apply not_elem_of_nil in Hu.
  - simpl in Hnd. apply NoDup_cons in Hnd as [Hx Hnd].
    apply elem_of_cons in Hu as [-> | Hu];
      apply elem_of_cons in Hv as [-> | Hv]; auto.
    + exfalso. apply Hx. rewrite Heq.
      apply (list_elem_of_fmap_2 (fun x => lower env (name x))), Hv.
    + exfalso. apply Hx. rewrite <- Heq.
      apply (list_elem_of_fmap_2 (fun x => lower env (name x))), Hu.
Qed.

(** X8. Every voice of the listing can be found: queried by a name whose
    lowered form ([str.lower()], on every letter the Unicode tables lower, not
    only on A to Z) is that of a listed voice [v], [get_voice_by_name] returns
    a voice of the listing whose lowered name is that of [v], and [v] itself
    when no two listed names coincide once lowered.  The function makes one
    call to the service, prints nothing and writes nothing; when that call
    raises, the exception is passed on to the caller. *)
Theorem get_voice_by_name_finds_listed (env : Env)
    (self : Main.ElevenLabsDemo) (w : World) (q : string) :
  let key := client_api_key (Main.client self) in
  (forall voices v,
     voices_get_all env (trace w) key = inr voices ->
     v ∈ voices ->
     lower env q = lower env (name v) ->
     exists u,
       Main.get_voice_by_name env self q w =
         ({| trace := trace w ++ [EvGetAll key]; files := files w |},
          inr (Some u)) /\
       u ∈ voices /\
       lower env (name u) = lower env (name v) /\
       (NoDup (map (fun x => lower env (name x)) voices) -> u = v)) /\
  (forall e,
     voices_get_all env (trace w) key = inl e ->
     Main.get_voice_by_name env self q w =
       ({| trace := trace w ++ [EvGetAll key]; files := files w |}, inl e)).
Proof.
  intros key. split.
  - intros voices v Hlisting Hv Hq.
    unfold Main.get_voice_by_name.
    erewrite bind_ok by (rewrite get_all_run; fold key; by rewrite Hlisting).
    destruct (Main.scan_voices env voices q) as [u|] eqn:Hscan.
    + exists u. split; [reflexivity |].
      apply scan_voices_Some in Hscan as (pre & post & -> & Hu & _).
      assert (Hin : u ∈ pre ++ u :: post)
        by (apply elem_of_app; right; apply list_elem_of_here).
      repeat split; [exact Hin | congruence |].
      intros Hnd. apply (lowered_names_inj env _ _ _ Hnd Hin Hv). congruence.
    + exfalso. apply scan_voices_None in Hscan.
      rewrite Forall_forall in Hscan. by apply (Hscan v Hv).
  - intros e Hlisting. unfold Main.get_voice_by_name.
    by erewrite bind_raise
      by (rewrite get_all_run; fold key; by rewrite Hlisting).
Qed.

Lemma get_voice_by_name_finds_listed_witness :
  (exists u,
     Main.get_voice_by_name (env_fixed ∅ [rachel; drew] (AudioBytes riff))
       test_demo "DREW" world0 =
       ({| trace := trace world0 ++ [EvGetAll "test-key"];
           files := files world0 |}, inr (Some u)) /\
     u ∈ [rachel; drew] /\
     lower (env_fixed ∅ [rachel; drew] (AudioBytes riff)) (name u) = lower (env_fixed ∅ [rachel; drew] (AudioBytes riff)) (name drew) /\
     (NoDup (map (fun x => lower (env_fixed ∅ [rachel; drew] (AudioBytes riff)) (name x)) [rachel; drew]) -> u = drew)) /\
  Main.get_voice_by_name (env_no_listing ∅ quota_exceeded) test_demo "DREW"
    world0 =
    ({| trace := trace world0 ++ [EvGetAll "test-key"];
        files := files world0 |}, inl quota_exceeded).
Proof.
  split.
  - pose proof (get_voice_by_name_finds_listed
                  (env_fixed ∅ [rachel; drew] (AudioBytes riff)) test_demo
                  world0 "DREW") as H.
    cbv zeta in H. destruct H as [Hfound _].
    apply (Hfound [rachel; drew] drew).
    + reflexivity.
    + apply list_elem_of_further, list_elem_of_here.
    + reflexivity.
  - pose proof (get_voice_by_name_finds_listed
                  (env_no_listing ∅ quota_exceeded) test_demo world0 "DREW")
      as H.
    cbv zeta in H. destruct H as [_ Hraise].
    apply (Hraise quota_exceeded). reflexivity.
Defined.

(** ** Saving comes before playing *)


Lemma advanced_tts_run (env : Env) (self : Main.ElevenLabsDemo) (w : World)
    (text vid : string) (s sb st : float) (usb : bool)
    (output_file : string) :
  let key := client_api_key (Main.client self) in
  let req :=
    {| g_text := text;
       g_voice :=
         VoiceObj {| init_voice_id := Some vid;
                     init_name := None;
                     init_settings :=
                       Some {| stability := s;
                               similarity_boost := sb;
                               style := st;
                               use_speaker_boost := usb |} |};
       g_model := "eleven_multilingual_v2";
       g_stream := None |} in
  let tr :=
    trace w ++
    [EvPrint [Lit "🎛️  高级文本转语音设置:"];
     EvPrint [Lit "   稳定性: "; PFloat s];
     EvPrint [Lit "   相似度增强: "; PFloat sb];
     EvPrint [Lit "   风格: "; PFloat st];
     EvPrint [Lit "   扬声器增强: "; PBool usb]] in
  Main.advanced_tts_with_settings env self text vid s sb st usb output_file w =
    match generate env tr key req with
    | inl e =>
        ({| trace := tr ++ [EvGenerate key req;
                            EvPrint [Lit "❌ 错误: "; PExc e]];
            files := files w |}, inr tt)
    | inr audio =>
        match save_raises env (tr ++ [EvGenerate key req]) audio output_file with
        | Some e =>
            ({| trace := tr ++ [EvGenerate key req; EvSave audio output_file;
                                EvPrint [Lit "❌ 错误: "; PExc e]];
                files := files w |}, inr tt)
        | None =>
            let tr' :=
              tr ++ [EvGenerate key req; EvSave audio output_file;
                     EvPrint [Lit "✅ 高级音频已保存到: "; PStr output_file]] in
            ({| trace :=
                  tr' ++ EvPlay audio ::
                    match play_raises env tr' audio with
                    | Some e => [EvPrint [Lit "❌ 错误: "; PExc e]]
                    | None => []
                    end;
                files := <[output_file := audio_bytes audio]> (files w) |},
             inr tt)
        end
    end.
Proof.
  intros key req tr. subst tr. unfold Main.advanced_tts_with_settings.
  do 5 (erewrite bind_ok by apply print_run).
  rewrite try_except_run. cbv zeta. rewrite bind_run, new_voice_run.
  cbn [init_voice_id]. rewrite bind_run.
  unfold client_generate, log.
  norm_trace. fold key req.
  destruct (generate env _ key req) as [e|audio]; norm_trace.
  - rewrite print_run. unfold log. by norm_trace.
  - rewrite bind_run. unfold save at 1. cbn [trace files].
    match goal with
    | |- context [received ?t audio] =>
        replace (received t audio) with (audio_bytes audio)
          by (symmetry; apply (received_first (trace w) [_; _; _; _; _]))
    end.
    destruct (save_raises env _ audio output_file) as [e|]; norm_trace.
    + rewrite print_run. unfold log. by norm_trace.
    + destruct (play_raises env _ audio) as [e|]; rewrite ?print_run;
        unfold log; by norm_trace.
Qed.

(** X10. [advanced_tts_with_settings] plays only what it has saved, like
    [basic_tts]: either nothing is played and no file changes, or one audio
    object was saved, the output file holds all of its bytes and that object,
    once, went to the playback sink.  When the synthesis returns an audio and
    saving does not raise, it is the second case, with the object returned:
    playback is called right after the confirmation line, and what it can
    still read is a second read of the object, the whole buffer for bytes and
    nothing for an iterator of chunks, which saving has drained. *)
Theorem advanced_tts_plays_what_it_saved (env : Env)
    (self : Main.ElevenLabsDemo) (w : World) (text vid : string)
    (s sb st : float) (usb : bool) (output_file : string) :
  let key := client_api_key (Main.client self) in
  let req :=
    {| g_text := text;
       g_voice :=
         VoiceObj {| init_voice_id := Some vid;
                     init_name := None;
                     init_settings :=
                       Some {| stability := s;
                               similarity_boost := sb;
                               style := st;
                               use_speaker_boost := usb |} |};
       g_model := "eleven_multilingual_v2";
       g_stream := None |} in
  let tr :=
    trace w ++
    [EvPrint [Lit "🎛️  高级文本转语音设置:"];
     EvPrint [Lit "   稳定性: "; PFloat s];
     EvPrint [Lit "   相似度增强: "; PFloat sb];
     EvPrint [Lit "   风格: "; PFloat st];
     EvPrint [Lit "   扬声器增强: "; PBool usb]] in
  let w' :=
    (Main.advanced_tts_with_settings env self text vid s sb st usb
       output_file w).1 in
  ((play_calls (trace w') = play_calls (trace w) /\ files w' = files w) \/
   (exists audio,
      save_calls (trace w') = save_calls (trace w) ++ [(audio, output_file)] /\
      play_calls (trace w') = play_calls (trace w) ++ [audio] /\
      files w' = <[output_file := audio_bytes audio]> (files w))) /\
  (forall audio,
     generate env tr key req = inr audio ->
     save_raises env (tr ++ [EvGenerate key req]) audio output_file = None ->
     let before :=
       tr ++ [EvGenerate key req; EvSave audio output_file;
              EvPrint [Lit "✅ 高级音频已保存到: "; PStr output_file]] in
     save_calls (trace w') = save_calls (trace w) ++ [(audio, output_file)] /\
     play_calls (trace w') = play_calls (trace w) ++ [audio] /\
     files w' !! output_file = Some (audio_bytes audio) /\
     (exists after, trace w' = before ++ EvPlay audio :: after) /\
     received before audio = second_read audio).
Proof.
  intros key req tr w'. subst w'. rewrite advanced_tts_run. cbv zeta.
  fold key req tr. unfold play_calls, save_calls. split.
  - destruct (generate env tr key req) as [e|audio];
      [| destruct (save_raises env _ audio _) as [e|]].
    + left. subst tr. simpl. rewrite !flat_map_app. simpl.
      by rewrite !app_nil_r.
    + left. subst tr. simpl. rewrite !flat_map_app. simpl.
      by rewrite !app_nil_r.
    + right. exists audio. subst tr. simpl. rewrite !flat_map_app. simpl.
      by destruct (play_raises env _ audio); simpl; rewrite ?app_nil_r.
  - intros audio -> ->. cbn [fst trace files].
    split; [| split; [| split; [| split]]].
    + subst tr. rewrite !flat_map_app. simpl.
      destruct (play_raises env _ audio); simpl; by rewrite ?app_nil_r.
    + subst tr. rewrite !flat_map_app. simpl.
      destruct (play_raises env _ audio); simpl; by rewrite ?app_nil_r.
    + apply lookup_insert_eq.
    + by eexists.
    + exact (received_after_save tr key req audio output_file [_]).
Qed.

Lemma advanced_tts_plays_what_it_saved_witness :
  let run :=
    (Main.advanced_tts_with_settings
       (env_fixed ∅ [rachel] (AudioChunks [riff; riff])) test_demo "Hi"
       "21m00Tcm4TlvDq8ikWAM" f_0_7 f_0_8 f_0_2 true "adv.mp3" world0).1 in
  save_calls (trace run) = [(AudioChunks [riff; riff], "adv.mp3")] /\
  play_calls (trace run) = [AudioChunks [riff; riff]] /\
  files run !! "adv.mp3" = Some (riff ++ riff) /\
  exists before after,
    trace run = before ++ EvPlay (AudioChunks [riff; riff]) :: after /\
    received before (AudioChunks [riff; riff]) = [].
Proof.
  pose proof (advanced_tts_plays_what_it_saved
                (env_fixed ∅ [rachel] (AudioChunks [riff; riff])) test_demo
                world0 "Hi" "21m00Tcm4TlvDq8ikWAM" f_0_7 f_0_8 f_0_2 true
                "adv.mp3")
    as H.
  cbv zeta in H. destruct H as [_ Hsaved].
  destruct (Hsaved (AudioChunks [riff; riff]) eq_refl eq_refl)
    as (Hsave & Hplay & Hfile & [after Htrace] & Hread).
  cbv zeta.
  split; [exact Hsave | split; [exact Hplay | split; [exact Hfile |]]].
  eexists. exists after. split; [exact Htrace | exact Hread].
Defined.

(** X11. [streaming_tts] neither saves nor plays a buffer and changes no
    file, whatever the service and the sink do; and it never raises. *)
Theorem streaming_tts_leaves_no_file (env : Env)
    (self : Main.ElevenLabsDemo) (w : World) (text voice_name : string) :
  exists w',
    Main.streaming_tts env self text voice_name w = (w', inr tt) /\
    files w' = files w /\
    save_calls (trace w') = save_calls (trace w) /\
    play_calls (trace w') = play_calls (trace w).
Proof.
  rewrite streaming_tts_run. cbv zeta. unfold save_calls, play_calls.
  destruct (voice_without_id env _) as [e0|];
    [| destruct (generate env _ _ _) as [e|a]];
    eexists; (split; [reflexivity |]);
    simpl; rewrite !flat_map_app; simpl; by rewrite !app_nil_r.
Qed.

(** ** The comparison behind an SDK that wants a [voice_id] *)

Lemma demo_voices_loop_rejected (env : Env) (self : Main.ElevenLabsDemo)
    (text : string) (e : Exc) (ivs : list (nat * string)) (w : World) :
  (forall iv, iv ∈ ivs -> voice_without_id env (name_only iv.2) = Some e) ->
  for_each ivs (Main.demo_voice env self text) w =
    ({| trace :=
          trace w ++
          flat_map
            (fun iv : nat * string =>
               [voice_header iv.1 iv.2;
                EvPrint [Lit "   ❌ 语音 "; PStr iv.2; Lit " 失败: "; PExc e]])
            ivs;
        files := files w |}, inr tt).
Proof.
  revert w. induction ivs as [|[i voice_name] ivs IH]; intros w Hrejects.
  - simpl. rewrite app_nil_r. by destruct w.
  - cbn [for_each].
    erewrite bind_ok.
    2: { rewrite demo_voice_run. cbv zeta.
         pose proof (Hrejects (i, voice_name) (list_elem_of_here _ _)) as Hr.
         cbn [snd] in Hr. rewrite Hr. reflexivity. }
    rewrite IH by (intros iv Hiv; by apply Hrejects, list_elem_of_further).
    cbn [trace files flat_map fst snd]. by rewrite <- !app_assoc.
Qed.

(** X12. Behind an SDK whose [Voice] rejects a missing [voice_id] with [e],
    [demo_multiple_voices] compares nothing: under its header it announces
    each of its four voices in turn, numbered from 1, and prints the failure
    line of that voice with [e]; it sends nothing to the service, saves and
    plays nothing, changes no file, and returns normally. *)
Theorem demo_multiple_voices_without_voice_ids (env : Env)
    (self : Main.ElevenLabsDemo) (w : World) (text : string) (e : Exc) :
  (forall voice_name,
     voice_name ∈ ["Rachel"; "Drew"; "Clyde"; "Paul"] ->
     voice_without_id env (name_only voice_name) = Some e) ->
  exists w',
    Main.demo_multiple_voices env self text w = (w', inr tt) /\
    trace w' =
      trace w ++
      EvPrint [Lit "🎭 多语音演示: '"; PStr text; Lit "'"] ::
      flat_map
        (fun iv : nat * string =>
           [EvPrint [Lit (nl +:+ "🗣️  语音 "); PInt iv.1; Lit ": ";
                     PStr iv.2];
            EvPrint [Lit "   ❌ 语音 "; PStr iv.2; Lit " 失败: "; PExc e]])
        [(1, "Rachel"); (2, "Drew"); (3, "Clyde"); (4, "Paul")] /\
    files w' = files w /\
    network_calls (trace w') = network_calls (trace w) /\
    save_calls (trace w') = save_calls (trace w) /\
    play_calls (trace w') = play_calls (trace w) /\
    stream_calls (trace w') = stream_calls (trace w).
Proof.
  intros Hrejects. unfold Main.demo_multiple_voices.
  erewrite bind_ok by apply print_run.
  rewrite (demo_voices_loop_rejected env self text e).
  2: { intros [i voice_name] Hiv. apply Hrejects. cbn [snd].
       unfold Main.demo_voices in Hiv. cbn [enumerate] in Hiv.
       repeat (apply elem_of_cons in Hiv as [[= _ ->] | Hiv];
               [repeat first [apply list_elem_of_here
                             | apply list_elem_of_further] |]).
       by apply not_elem_of_nil in Hiv. }
  eexists. split; [reflexivity |].
  unfold log, Main.demo_voices, voice_header.
  cbn [trace files enumerate flat_map app fst snd].
  unfold network_calls, save_calls, play_calls, stream_calls.
  rewrite <- !app_assoc. cbn [app].
  split; [reflexivity | split; [reflexivity |]].
  rewrite !flat_map_app. simpl. by rewrite !app_nil_r.
Qed.

Lemma demo_multiple_voices_without_voice_ids_witness :
  exists w',
    Main.demo_multiple_voices (env_fixed ∅ [rachel] (AudioBytes riff))
      test_demo "Hello" world0 = (w', inr tt) /\
    files w' = files world0 /\
    network_calls (trace w') = [] /\
    save_calls (trace w') = [] /\
    play_calls (trace w') = [].
Proof.
  destruct (demo_multiple_voices_without_voice_ids
              (env_fixed ∅ [rachel] (AudioBytes riff)) test_demo world0
              "Hello" voice_id_required)
    as (w' & Hrun & _ & Hfiles & Hnet & Hsave & Hplay & _).
  - intros voice_name _. reflexivity.
  - exists w'. by repeat split.
Defined.

(** ** The simple example, step by step *)

Lemma available_voices_loop_run (voices : list Voice) (w : World) :
  for_each voices (fun voice =>
    print [Lit "- "; PStr (name voice); Lit " (ID: "; PStr (voice_id voice);
           Lit ")"]) w =
  ({| trace := trace w ++ map available_voice_line voices;
      files := files w |}, inr tt).
Proof.
  revert w. induction voices as [|voice rest IH]; intros w.
  - destruct w as [tr fs]. simpl. by rewrite app_nil_r.
  - cbn [for_each map]. erewrite bind_ok by apply print_run.
    rewrite IH. unfold log, available_voice_line. simpl trace. simpl files.
    by rewrite <- !app_assoc.
Qed.

Lemma simple_text_to_speech_run (env : Env) (c : Client) (w : World) :
  let key := client_api_key c in
  let saved := EvPrint [Lit "Audio saved to simple_output.mp3"] in
  SimpleExample.simple_text_to_speech env c w =
    match generate env (trace w) key simple_request with
    | inl e =>
        ({| trace := trace w ++ [EvGenerate key simple_request];
            files := files w |}, inl e)
    | inr audio =>
        match save_raises env (trace w ++ [EvGenerate key simple_request])
                audio "simple_output.mp3" with
        | Some e =>
            ({| trace := trace w ++ [EvGenerate key simple_request;
                                     EvSave audio "simple_output.mp3"];
                files := files w |}, inl e)
        | None =>
            let tr' :=
              trace w ++ [EvGenerate key simple_request;
                          EvSave audio "simple_output.mp3"; saved] in
            match play_raises env tr' audio with
            | Some e =>
                ({| trace := tr' ++ [EvPlay audio];
                    files := <["simple_output.mp3" := audio_bytes audio]>
                               (files w) |}, inl e)
            | None =>
                ({| trace := tr' ++ [EvPlay audio;
                                     EvPrint [Lit "Playing audio..."]];
                    files := <["simple_output.mp3" := audio_bytes audio]>
                               (files w) |}, inr tt)
            end
        end
    end.
Proof.
  intros key saved. subst saved. unfold SimpleExample.simple_text_to_speech.
  cbv zeta. rewrite bind_run. unfold client_generate, log.
  simpl trace. simpl files. fold key. fold simple_request.
  destruct (generate env _ key simple_request) as [e|audio]; [reflexivity |].
  rewrite bind_run. unfold save at 1. simpl trace. simpl files.
  rewrite received_fresh.
  destruct (save_raises env _ audio _) as [e|].
  { unfold log. simpl trace. simpl files. rewrite <- !app_assoc.
    reflexivity. }
  erewrite bind_ok by apply print_run.
  rewrite bind_run. unfold play, log. simpl trace. simpl files.
  rewrite <- !app_assoc. simpl app.
  destruct (play_raises env _ audio) as [e|].
  { reflexivity. }
  rewrite print_run. unfold log. simpl trace. simpl files.
  rewrite <- ?app_assoc. reflexivity.
Qed.

Lemma script_run (env : Env) (w : World) :
  let k := default "YOUR_API_KEY" (environ env !! "ELEVENLABS_API_KEY") in
  let c := {| client_api_key := k |} in
  let completed := EvPrint [Lit (nl +:+ "✅ Demo completed!")] in
  SimpleExample.script env w =
    match voices_get_all env
            (trace w ++
             [EvGetenv "ELEVENLABS_API_KEY"; EvNewClient k;
              EvPrint [Lit "🎤 Simple ElevenLabs Demo"];
              EvPrint [Lit (str_mul "-" 30)]]) k with
    | inl e =>
        ({| trace := trace w ++ simple_start k; files := files w |}, inl e)
    | inr voices =>
        match SimpleExample.simple_text_to_speech env c
                {| trace := trace w ++ simple_start k ++ simple_listing voices;
                   files := files w |} with
        | (w', inl e) => (w', inl e)
        | (w', inr _) =>
            ({| trace := trace w' ++ [completed]; files := files w' |}, inr tt)
        end
    end.
Proof.
  intros k c completed. unfold SimpleExample.script.
  erewrite bind_ok by apply simple_client_run. cbv zeta. fold k c.
  do 2 (erewrite bind_ok by apply print_run).
  unfold SimpleExample.list_available_voices.
  rewrite bind_assoc_run, bind_run, get_all_run.
  unfold log. simpl trace. simpl files. simpl client_api_key.
  rewrite <- !app_assoc. simpl app.
  destruct (voices_get_all env _ k) as [e|voices]; [reflexivity |].
  rewrite bind_assoc_run. erewrite bind_ok by apply print_run.
  erewrite bind_ok by apply available_voices_loop_run.
  erewrite bind_ok by apply print_run.
  unfold log. simpl trace. simpl files.
  unfold simple_listing. rewrite <- !app_assoc. simpl app.
  rewrite bind_run.
  match goal with
  | |- context [SimpleExample.simple_text_to_speech env c ?w0] =>
      destruct (SimpleExample.simple_text_to_speech env c w0)
        as [w' [e|[]]]
  end; [reflexivity |].
  rewrite print_run. reflexivity.
Qed.

(** X13. [simple_example.py] catches nothing.  An exception of the listing
    call leaves the script right after that call; an exception of the
    synthesis call leaves it right after the listing has been printed, with
    nothing saved and nothing played; an exception of the playback leaves it
    with [simple_output.mp3] already written.  In all three cases the script
    ends with that exception and the completion line is not printed. *)
Theorem simple_example_errors_escape (env : Env) (w : World) (e : Exc) :
  let k := default "YOUR_API_KEY" (environ env !! "ELEVENLABS_API_KEY") in
  let listing :=
    voices_get_all env
      (trace w ++
       [EvGetenv "ELEVENLABS_API_KEY"; EvNewClient k;
        EvPrint [Lit "🎤 Simple ElevenLabs Demo"];
        EvPrint [Lit (str_mul "-" 30)]]) k in
  (listing = inl e ->
   SimpleExample.script env w =
     ({| trace := trace w ++ simple_start k; files := files w |}, inl e)) /\
  (forall voices,
     let tr := trace w ++ simple_start k ++ simple_listing voices in
     listing = inr voices ->
     generate env tr k simple_request = inl e ->
     SimpleExample.script env w =
       ({| trace := tr ++ [EvGenerate k simple_request];
           files := files w |}, inl e)) /\
  (forall voices audio,
     let tr := trace w ++ simple_start k ++ simple_listing voices in
     let tr' :=
       tr ++ [EvGenerate k simple_request; EvSave audio "simple_output.mp3";
              EvPrint [Lit "Audio saved to simple_output.mp3"]] in
     listing = inr voices ->
     generate env tr k simple_request = inr audio ->
     save_raises env (tr ++ [EvGenerate k simple_request]) audio
       "simple_output.mp3" = None ->
     play_raises env tr' audio = Some e ->
     SimpleExample.script env w =
       ({| trace := tr' ++ [EvPlay audio];
           files := <["simple_output.mp3" := audio_bytes audio]> (files w) |},
        inl e)).
Proof.
  intros k listing. split; [| split].
  - intros Hlisting. rewrite script_run. cbv zeta. fold k. fold listing.
    by rewrite Hlisting.
  - intros voices tr Hlisting Hgen.
    rewrite script_run. cbv zeta. fold k. fold listing. rewrite Hlisting.
    rewrite simple_text_to_speech_run. cbv zeta.
    cbn [trace files client_api_key]. fold tr.
    by rewrite Hgen.
  - intros voices audio tr tr' Hlisting Hgen Hsave Hplay.
    rewrite script_run. cbv zeta. fold k. fold listing. rewrite Hlisting.
    rewrite simple_text_to_speech_run. cbv zeta.
    cbn [trace files client_api_key]. fold tr.
    rewrite Hgen, Hsave. fold tr'. by rewrite Hplay.
Qed.

Lemma simple_example_errors_escape_witness :
  SimpleExample.script (env_no_listing ∅ quota_exceeded) world0 =
    ({| trace := simple_start "YOUR_API_KEY"; files := ∅ |},
     inl quota_exceeded) /\
  SimpleExample.script (env_failing ∅ [rachel]) world0 =
    ({| trace :=
          simple_start "YOUR_API_KEY" ++ simple_listing [rachel] ++
          [EvGenerate "YOUR_API_KEY" simple_request];
        files := ∅ |}, inl quota_exceeded).
Proof.
  split.
  - pose proof (simple_example_errors_escape
                  (env_no_listing ∅ quota_exceeded) world0 quota_exceeded)
      as H.
    cbv zeta in H. destruct H as [Hlisting _].
    apply Hlisting. reflexivity.
  - pose proof (simple_example_errors_escape (env_failing ∅ [rachel]) world0
                  quota_exceeded) as H.
    cbv zeta in H. destruct H as (_ & Hgenerate & _).
    apply (Hgenerate [rachel]); reflexivity.
Defined.

(** X14. When the listing and the synthesis return and neither saving nor
    playing raises, [simple_example.py] prints one line per listed voice,
    issues one synthesis call for the voice "Rachel" with the model
    "eleven_monolingual_v1", writes all the bytes of the audio to
    [simple_output.mp3], hands the same object once to the playback and ends
    with the completion line.  What the playback can still read of the object
    is a second read: the whole buffer when the service returned bytes,
    nothing when it returned an iterator of chunks, which saving has
    drained. *)
Theorem simple_example_success (env : Env) (w : World)
    (voices : list Voice) (audio : Audio) :
  let k := default "YOUR_API_KEY" (environ env !! "ELEVENLABS_API_KEY") in
  let tr := trace w ++ simple_start k ++ simple_listing voices in
  let tr' :=
    tr ++ [EvGenerate k simple_request; EvSave audio "simple_output.mp3";
           EvPrint [Lit "Audio saved to simple_output.mp3"]] in
  voices_get_all env
    (trace w ++
     [EvGetenv "ELEVENLABS_API_KEY"; EvNewClient k;
      EvPrint [Lit "🎤 Simple ElevenLabs Demo"];
      EvPrint [Lit (str_mul "-" 30)]]) k = inr voices ->
  generate env tr k simple_request = inr audio ->
  save_raises env (tr ++ [EvGenerate k simple_request]) audio
    "simple_output.mp3" = None ->
  play_raises env tr' audio = None ->
  SimpleExample.script env w =
    ({| trace :=
          tr' ++ [EvPlay audio; EvPrint [Lit "Playing audio..."];
                  EvPrint [Lit (nl +:+ "✅ Demo completed!")]];
        files := <["simple_output.mp3" := audio_bytes audio]> (files w) |},
     inr tt) /\
  received tr' audio = second_read audio.
Proof.
  intros k tr tr' Hlisting Hgen Hsave Hplay. split.
  - rewrite script_run. cbv zeta. fold k. rewrite Hlisting.
    rewrite simple_text_to_speech_run. cbv zeta.
    cbn [trace files client_api_key]. fold tr.
    rewrite Hgen, Hsave. fold tr'. rewrite Hplay.
    cbn [trace files]. by rewrite <- !app_assoc.
  - exact (received_after_save tr k simple_request audio
             "simple_output.mp3" [_]).
Qed.

Lemma simple_example_success_witness :
  let audio := AudioChunks [riff; riff] in
  let before :=
    simple_start "test-key" ++ simple_listing [rachel; drew] ++
    [EvGenerate "test-key" simple_request;
     EvSave audio "simple_output.mp3";
     EvPrint [Lit "Audio saved to simple_output.mp3"]] in
  SimpleExample.script (env_fixed with_key [rachel; drew] audio) world0 =
    ({| trace :=
          before ++
          [EvPlay audio; EvPrint [Lit "Playing audio..."];
           EvPrint [Lit (nl +:+ "✅ Demo completed!")]];
        files := {[ "simple_output.mp3" := riff ++ riff ]} |}, inr tt) /\
  received before audio = [].
Proof.
  apply (simple_example_success
           (env_fixed with_key [rachel; drew] (AudioChunks [riff; riff]))
           world0 [rachel; drew] (AudioChunks [riff; riff])); reflexivity.
Defined.

(** X15. [simple_example.py] falls back to the placeholder only when the
    variable is unset.  With [ELEVENLABS_API_KEY] set to the empty string it
    builds its client with the empty key and asks the service for the listing
    with it, where the runner of [main.py] raises the configuration error. *)
Theorem simple_example_empty_key (env : Env) (w : World) :
  environ env !! "ELEVENLABS_API_KEY" = Some "" ->
  (exists rest,
     trace (SimpleExample.script env w).1 =
       trace w ++ simple_start "" ++ rest) /\
  (Main.__init__ env None w).2 = inl Main.api_key_required.
Proof.
  intros Hempty. split.
  - rewrite script_run. cbv zeta. rewrite Hempty. simpl default.
    destruct (voices_get_all env _ "") as [e|voices].
    + exists []. cbn [fst trace]. by rewrite app_nil_r.
    + match goal with
      | |- context [SimpleExample.simple_text_to_speech env ?c ?w0] =>
          assert (Happ : appends (SimpleExample.simple_text_to_speech env c))
            by (unfold SimpleExample.simple_text_to_speech; solve_appends);
          destruct (Happ w0) as [rest Hrest];
          destruct (SimpleExample.simple_text_to_speech env c w0)
            as [w' [e|[]]]
      end; cbn [fst trace] in Hrest |- *; rewrite Hrest.
      * exists (simple_listing voices ++ rest). by rewrite <- !app_assoc.
      * eexists (simple_listing voices ++ rest ++ [_]).
        by rewrite <- !app_assoc.
  - rewrite init_falsy by reflexivity. by rewrite Hempty.
Qed.

Lemma simple_example_empty_key_witness :
  (exists rest,
     trace (SimpleExample.script
              (env_fixed {[ "ELEVENLABS_API_KEY" := "" ]} [rachel]
                 (AudioBytes riff)) world0).1 =
       trace world0 ++ simple_start "" ++ rest) /\
  (Main.__init__ (env_fixed {[ "ELEVENLABS_API_KEY" := "" ]} [rachel]
                    (AudioBytes riff)) None world0).2 =
    inl Main.api_key_required.
Proof.
  apply (simple_example_empty_key
           (env_fixed {[ "ELEVENLABS_API_KEY" := "" ]} [rachel]
              (AudioBytes riff)) world0).
  reflexivity.
Defined.
